(** * sort.c: random distinct list and split into two groups

    A shallow embedding of [src/sort.c] (ft_swap, shuffle,
    create_distinct_random_list, split_into_groups) over an explicit
    memory of [Manage] arrays, and the properties of the shuffler, the
    sampler and the partitioner proved on it.

    Conventions of the embedding (LP64, as on the platform the program
    is written for):
    - [int] values are modelled in [Z]; the only counters of the code
      ([i] in the three [while (++i < n)] loops) stop at [n <= INT_MAX],
      so no signed wrap-around can occur and none is written;
    - [size_t] arithmetic (the argument of [malloc]) wraps modulo 2^64;
    - a pointer is [NULL] or a block identifier with an offset counted
      in [Manage] objects; pointer arithmetic moves the offset;
    - reading or writing through [NULL], outside a block or in a freed
      block is undefined behaviour ([Undefined]);
    - [rand()] and [malloc] are external: the world carries the stream
      of future [rand()] results and, for each future [malloc] request,
      whether the allocator will serve it. *)

From Stdlib Require Import ZArith Lia Ascii String List Permutation Factorial.
From stdpp Require Import base tactics option list numbers.

Local Open Scope Z_scope.

(** ** Data model *)

(** [typedef struct Manage { char *pseudo; int id; } Manage;]
    [pseudo] points to a string literal of the caller; it is modelled by
    the string it points to. *)
Record Manage : Type := mkManage { pseudo : string; id : Z }.

(** The storage of one [Manage] object: each field is either
    indeterminate ([None], as [malloc] leaves it) or holds a value. *)
Record slot : Type := mkSlot { slot_pseudo : option string; slot_id : option Z }.

Definition fresh_slot : slot := mkSlot None None.
Definition slot_of (m : Manage) : slot := mkSlot (Some (pseudo m)) (Some (id m)).
Definition slot_val (s : slot) : option Manage :=
  match slot_pseudo s, slot_id s with
  | Some p, Some i => Some (mkManage p i)
  | _, _ => None
  end.
Definition set_pseudo (p : string) (s : slot) : slot := mkSlot (Some p) (slot_id s).
Definition set_id (i : Z) (s : slot) : slot := mkSlot (slot_pseudo s) (Some i).

(** A block obtained from [malloc]: its objects, and whether it has not
    been passed to [free] yet. [free] keeps the contents (the C library
    does not erase them) but any later access is undefined. *)
Record mblock : Type := mkBlock { cells : list slot; live : bool }.

Inductive pointer : Type :=
| NULL
| Ptr (b : nat) (o : Z).

Definition is_null (p : pointer) : bool :=
  match p with NULL => true | Ptr _ _ => false end.

(** [p + k] *)
Definition ptr_add (p : pointer) (k : Z) : pointer :=
  match p with
  | NULL => NULL
  | Ptr b o => Ptr b (o + k)
  end.
Infix "+ₚ" := ptr_add (at level 50, left associativity).

Record world : Type := mkWorld {
  heap : list mblock;        (* block [b] is [heap !! b] *)
  rng : nat -> N;            (* the k-th result of [rand()], never negative *)
  drawn : nat;               (* number of [rand()] calls made so far *)
  alloc_ok : nat -> bool;    (* will the k-th [malloc] request be served? *)
  requested : nat            (* number of [malloc] calls made so far *)
}.

Definition set_heap (h : list mblock) (w : world) : world :=
  mkWorld h (rng w) (drawn w) (alloc_ok w) (requested w).

(** ** The monad of the embedding: state, undefined behaviour, fuel *)

Inductive outcome (A : Type) : Type :=
| Done (a : A) (w : world)
| Undefined
| Timeout.
Arguments Done {A} a w.
Arguments Undefined {A}.
Arguments Timeout {A}.

Definition M (A : Type) : Type := world -> outcome A.

Definition ret {A} (a : A) : M A := fun w => Done a w.
Definition bind {A B} (m : M A) (k : A -> M B) : M B :=
  fun w => match m w with
           | Done a w' => k a w'
           | Undefined => Undefined
           | Timeout => Timeout
           end.
Definition undefined {A} : M A := fun _ => Undefined.
Definition timeout {A} : M A := fun _ => Timeout.

Notation "x <- m ;; k" := (bind m (fun x => k))
  (at level 100, m at next level, right associativity).
Notation "m ;;; k" := (bind m (fun _ => k))
  (at level 100, right associativity).

(** ** Memory operations *)

Definition lookup_cell (w : world) (p : pointer) : option (mblock * nat * slot) :=
  match p with
  | NULL => None
  | Ptr b o =>
      match heap w !! b with
      | Some blk =>
          if live blk && (0 <=? o) then
            match cells blk !! Z.to_nat o with
            | Some s => Some (blk, Z.to_nat o, s)
            | None => None
            end
          else None
      | None => None
      end
  end.

(** [*p] as an rvalue (a whole [Manage], copied as it is stored) *)
Definition load (p : pointer) : M slot := fun w =>
  match lookup_cell w p with
  | Some (_, _, s) => Done s w
  | None => Undefined
  end.

(** an assignment through [p] that turns the stored object into [f] of it *)
Definition update (p : pointer) (f : slot -> slot) : M unit := fun w =>
  match p, lookup_cell w p with
  | Ptr b _, Some (blk, i, s) =>
      Done tt (set_heap (<[b := mkBlock (<[i := f s]> (cells blk)) true]> (heap w)) w)
  | _, _ => Undefined
  end.

(** [*p = s] *)
Definition store (p : pointer) (s : slot) : M unit := update p (fun _ => s).

(** [p >= q], defined for pointers into the same block *)
Definition ptr_ge (p q : pointer) : M bool :=
  match p, q with
  | Ptr b o, Ptr b' o' => if Nat.eqb b b' then ret (o' <=? o) else undefined
  | _, _ => undefined
  end.

(** [p - q], defined for pointers into the same block *)
Definition ptr_diff (p q : pointer) : M Z :=
  match p, q with
  | Ptr b o, Ptr b' o' => if Nat.eqb b b' then ret (o - o') else undefined
  | _, _ => undefined
  end.

(** [rand()] *)
Definition rand : M Z := fun w =>
  Done (Z.of_N (rng w (drawn w)))
       (mkWorld (heap w) (rng w) (S (drawn w)) (alloc_ok w) (requested w)).

Definition sizeof_Manage : Z := 16.
Definition SIZE_MODULUS : Z := 2 ^ 64.
Definition PTRDIFF_MAX : Z := 2 ^ 63 - 1.
Definition INT_MAX : Z := 2 ^ 31 - 1.

(** conversion to [size_t] *)
Definition size_t (z : Z) : Z := z mod SIZE_MODULUS.

(** [n * sizeof(Manage)] where [n] is an [int] expression: [n] is
    converted to [size_t] and the product is taken in [size_t]. *)
Definition array_bytes (n : Z) : Z := size_t (size_t n * sizeof_Manage).

(** [malloc(size)]. A request of more than [PTRDIFF_MAX] bytes is never
    served; any other request is served or not as the allocator decides.
    A served request yields a new block of [size / sizeof(Manage)]
    indeterminate objects, distinct from every block handed out before. *)
Definition malloc (size : Z) : M pointer := fun w =>
  let w' := mkWorld (heap w) (rng w) (drawn w) (alloc_ok w) (S (requested w)) in
  if (size <=? PTRDIFF_MAX) && alloc_ok w (requested w) then
    Done (Ptr (length (heap w)) 0)
         (set_heap (heap w ++ [mkBlock (replicate (Z.to_nat (size / sizeof_Manage)) fresh_slot) true]) w')
  else Done NULL w'.

(** [free(p)] *)
Definition free (p : pointer) : M unit := fun w =>
  match p with
  | NULL => Done tt w
  | Ptr b o =>
      match heap w !! b with
      | Some blk =>
          if live blk && (o =? 0) then
            Done tt (set_heap (<[b := mkBlock (cells blk) false]> (heap w)) w)
          else Undefined
      | None => Undefined
      end
  end.

(** [*(names + i)] where [names] is the caller's array of labels *)
Definition load_name (names : list string) (i : Z) : M string :=
  if 0 <=? i then
    match names !! Z.to_nat i with
    | Some s => ret s
    | None => undefined
    end
  else undefined.

(** ** The program *)

Definition RANGE : Z := 6.

(** [static void ft_swap(Manage *ptr, Manage *ptr2)] *)
Definition ft_swap (ptr ptr2 : pointer) : M unit :=
  temp <- load ptr ;;
  v <- load ptr2 ;;
  store ptr v ;;;
  store ptr2 temp.

(** The loop of [shuffle]:
    [while (ptr >= array + 1) { swap_with = array + rand() % (ptr - array + 1);
                                ft_swap(ptr, swap_with); ptr--; }] *)
Fixpoint shuffle_loop (fuel : nat) (array ptr : pointer) : M unit :=
  c <- ptr_ge ptr (array +ₚ 1) ;;
  if c : bool then
    match fuel with
    | O => timeout
    | S fuel' =>
        r <- rand ;;
        d <- ptr_diff ptr array ;;
        let swap_with := array +ₚ Z.rem r (d + 1) in
        ft_swap ptr swap_with ;;;
        shuffle_loop fuel' array (ptr +ₚ (-1))
    end
  else ret tt.

(** [static void shuffle(Manage *array, int len)] *)
Definition shuffle (array : pointer) (len : Z) : M unit :=
  let end_ := array +ₚ len in
  let ptr := end_ +ₚ (-1) in
  shuffle_loop (Z.to_nat len) array ptr.

(** First loop of [create_distinct_random_list], entered with [i = -1]:
    [while (++i < RANGE) { (ptr + i)->pseudo = *(names + i); (ptr + i)->id = i; }] *)
Fixpoint fill_loop (fuel : nat) (ptr : pointer) (names : list string) (i : Z) : M unit :=
  let i := i + 1 in
  if i <? RANGE then
    match fuel with
    | O => timeout
    | S fuel' =>
        nm <- load_name names i ;;
        update (ptr +ₚ i) (set_pseudo nm) ;;;
        update (ptr +ₚ i) (set_id i) ;;;
        fill_loop fuel' ptr names i
    end
  else ret tt.

(** Second loop of [create_distinct_random_list], entered with [i = -1]:
    [while (++i < len) *res_ptr++ = *ptr++;] *)
Fixpoint copy_loop (fuel : nat) (res_ptr ptr : pointer) (i len : Z) : M unit :=
  let i := i + 1 in
  if i <? len then
    match fuel with
    | O => timeout
    | S fuel' =>
        v <- load ptr ;;
        store res_ptr v ;;;
        copy_loop fuel' (res_ptr +ₚ 1) (ptr +ₚ 1) i len
    end
  else ret tt.

(** [static Manage *create_distinct_random_list(int len, char **names)] *)
Definition create_distinct_random_list (len : Z) (names : list string) : M pointer :=
  if len >? RANGE then ret NULL
  else
    new_list <- malloc (array_bytes RANGE) ;;
    result <- malloc (array_bytes len) ;;
    if is_null result || is_null new_list then ret NULL
    else
      fill_loop (Z.to_nat RANGE) new_list names (-1) ;;;
      shuffle new_list RANGE ;;;
      copy_loop (Z.to_nat len) result new_list (-1) len ;;;
      free new_list ;;;
      ret result.

(** The loop of [split_into_groups], entered with [i = -1]:
    [while (++i < len) { if (i < len / 2) *ptr_a++ = *lst++; else *ptr_b++ = *lst++; }] *)
Fixpoint split_loop (fuel : nat) (lst ptr_a ptr_b : pointer) (i len : Z) : M unit :=
  let i := i + 1 in
  if i <? len then
    match fuel with
    | O => timeout
    | S fuel' =>
        if i <? len ÷ 2 then
          v <- load lst ;;
          store ptr_a v ;;;
          split_loop fuel' (lst +ₚ 1) (ptr_a +ₚ 1) ptr_b i len
        else
          v <- load lst ;;
          store ptr_b v ;;;
          split_loop fuel' (lst +ₚ 1) ptr_a (ptr_b +ₚ 1) i len
    end
  else ret tt.

(** [static void split_into_groups(Manage *lst, int len, Manage **group_a, Manage **group_b)]
    The two out-parameters are the caller's pointer variables; the
    embedding returns the values the call leaves in them. Both are
    assigned before the check, whatever [malloc] returned. *)
Definition split_into_groups (lst : pointer) (len : Z) : M (pointer * pointer) :=
  group_a <- malloc (array_bytes (len ÷ 2)) ;;
  group_b <- malloc (array_bytes (len ÷ 2)) ;;
  if is_null group_a || is_null group_b then ret (group_a, group_b)
  else
    split_loop (Z.to_nat len) lst group_a group_b (-1) len ;;;
    ret (group_a, group_b).

(** ** Observing the memory *)

(** The [n] objects stored from [p] on, when [p] points into a live
    block that holds that many. *)
Definition read_slots (w : world) (p : pointer) (n : Z) : option (list slot) :=
  match p with
  | NULL => None
  | Ptr b o =>
      match heap w !! b with
      | Some blk =>
          if live blk && (0 <=? o) && (0 <=? n) && (o + n <=? Z.of_nat (length (cells blk)))
          then Some (take (Z.to_nat n) (drop (Z.to_nat o) (cells blk)))
          else None
      | None => None
      end
  end.

(** The same, when moreover every field of every object is initialised. *)
Definition read_array (w : world) (p : pointer) (n : Z) : option (list Manage) :=
  match read_slots w p n with
  | Some sl => mapM slot_val sl
  | None => None
  end.

(** ** A first world to run the program in *)

Definition the_names : list string :=
  ["dlesieur"; "anvilla"; "jpantoja"; "marimuno"; "rocgarci"; "vjan-nie"]%string.

Definition world0 (draws : list N) (allocs : list bool) : world :=
  mkWorld [] (fun k => nth k draws 0%N) 0 (fun k => nth k allocs true) 0.

(** A world whose memory is one live block holding the given objects. *)
Definition world_of_array (sl : list slot) (draws : list N) (allocs : list bool) : world :=
  mkWorld [mkBlock sl true] (fun k => nth k draws 0%N) 0 (fun k => nth k allocs true) 0.

(** The stream of [rand()] results that are themselves the given indices. *)
Definition stream_of (ds : list nat) : nat -> N := fun k => N.of_nat (nth k ds 0%nat).

(** The world [w] with another stream of [rand()] results, read from its start. *)
Definition with_draws (r : nat -> N) (w : world) : world :=
  mkWorld (heap w) r 0 (alloc_ok w) (requested w).

Definition three_entries : list slot :=
  slot_of <$> [mkManage "dlesieur" 0; mkManage "anvilla" 1; mkManage "jpantoja" 2].

Definition two_entries : list slot :=
  slot_of <$> [mkManage "dlesieur" 0; mkManage "anvilla" 1].

Definition four_entries : list slot :=
  slot_of <$> [mkManage "dlesieur" 0; mkManage "anvilla" 1;
               mkManage "jpantoja" 2; mkManage "marimuno" 3].

Definition run_sample (len : Z) (names : list string) (w : world) : option (option (list Manage)) :=
  match create_distinct_random_list len names w with
  | Done p w' => Some (read_array w' p len)
  | _ => None
  end.


(** ** The shuffle on a list, as the draws decide it *)

(** The exchange [ft_swap] performs on positions [i] and [j]. *)
Definition swap_at {A} (i j : nat) (l : list A) : list A :=
  match l !! i, l !! j with
  | Some x, Some y => <[j := x]> (<[i := y]> l)
  | _, _ => l
  end.

(** The indices [rand() % (i + 1)] that the loop of [shuffle] computes,
    in the order of the iterations, for [i] going from the given index
    down to 1, from the [d]-th result of [rand()] on. *)
Fixpoint draws_of (r : nat -> N) (d i : nat) : list nat :=
  match i with
  | O => []
  | S i' => Z.to_nat (Z.rem (Z.of_N (r d)) (Z.of_nat i + 1)) :: draws_of r (S d) i'
  end.

(** What the iterations do to the array, given their indices: the
    iteration that has [length ds] indices left works on position
    [length ds]. *)
Fixpoint shuffle_draws {A} (ds : list nat) (l : list A) : list A :=
  match ds with
  | [] => l
  | j :: ds' => shuffle_draws ds' (swap_at (length ds) j l)
  end.

(** A sequence of indices the loop can compute on an array of [S n]
    objects: the first is at most [n], the next at most [n - 1], ... *)
Fixpoint valid_draws (ds : list nat) : bool :=
  match ds with
  | [] => true
  | j :: ds' => (j <=? length ds)%nat && valid_draws ds'
  end.

(** All of them, for [n] iterations. *)
Fixpoint all_draws (n : nat) : list (list nat) :=
  match n with
  | O => [[]]
  | S n' => j ← seq 0 (S n); (cons j) <$> all_draws n'
  end.


(** The universe [create_distinct_random_list] builds before it shuffles:
    entry [k] pairs the label [names[k]] with the index [k], for the
    first [RANGE] labels. *)
Definition universe (names : list string) : list Manage :=
  imap (fun k nm => mkManage nm (Z.of_nat k)) (take (Z.to_nat RANGE) names).

(** ** The caller: [main] *)


(** The character written for ["\n"]. *)
Definition newline : string := String "010"%char EmptyString.

(** [list[i].pseudo] passed to ["%s"]: the object is read and its
    [pseudo] field must hold a pointer to a string. *)
Definition load_pseudo (p : pointer) : M string :=
  s <- load p ;;
  match slot_pseudo s with
  | Some nm => ret nm
  | None => undefined
  end.

(** [for (int i = 0; i < n; i++) printf("%s ", list[i].pseudo);]
    entered with the given [i]; the result is the text written. *)
Fixpoint print_loop (fuel : nat) (list : pointer) (i n : Z) : M string :=
  if i <? n then
    match fuel with
    | O => timeout
    | S fuel' =>
        nm <- load_pseudo (list +ₚ i) ;;
        rest <- print_loop fuel' list (i + 1) n ;;
        ret (nm ++ " " ++ rest)%string
    end
  else ret EmptyString.

(** [int main(void)]: the exit status and the text written to the
    standard output. [srand(time(NULL))] selects the stream of results
    of [rand()]: the stream of the world [main] runs in is that one. *)
Definition main : M (Z * string) :=
  let names := the_names in
  let len := 6 in
  random_list <- create_distinct_random_list len names ;;
  if is_null random_list then
    ret (1, ("Error: Failed to create the random list." ++ newline)%string)
  else
    line <- print_loop (Z.to_nat len) random_list 0 len ;;
    groups <- split_into_groups random_list len ;;
    line_a <- print_loop (Z.to_nat (len ÷ 2)) (fst groups) 0 (len ÷ 2) ;;
    line_b <- print_loop (Z.to_nat (len ÷ 2)) (snd groups) 0 (len ÷ 2) ;;
    free random_list ;;;
    free (fst groups) ;;;
    free (snd groups) ;;;
    ret (0, ("Random distinct list: " ++ line ++ newline
             ++ "Group A: " ++ line_a ++ newline
             ++ "Group B: " ++ line_b ++ newline)%string).

(** The text [print_loop] writes for a list of labels. *)
Fixpoint print_names (l : list string) : string :=
  match l with
  | [] => EmptyString
  | nm :: l' => (nm ++ " " ++ print_names l')%string
  end.

(** The text of a successful run of [main] that draws the labels in the
    order [l]. *)
Definition report (l : list string) : string :=
  ("Random distinct list: " ++ print_names l ++ newline
   ++ "Group A: " ++ print_names (take 3 l) ++ newline
   ++ "Group B: " ++ print_names (drop 3 l) ++ newline)%string.

(** ** Places in memory *)

Global Instance pointer_eq_dec : EqDecision pointer.
Proof. solve_decision. Defined.

(** * Properties *)

(** ** The memory operations *)

Section Memory.
Context (b : nat) (cs : list slot) (h : list mblock).
Context (r : nat -> N) (d : nat) (ok : nat -> bool) (q : nat).
Hypothesis Hb : h !! b = Some (mkBlock cs true).

Lemma load_at i s :
  cs !! i = Some s ->
  load (Ptr b (Z.of_nat i)) (mkWorld h r d ok q) = Done s (mkWorld h r d ok q).
Proof.
  intros Hs. unfold load, lookup_cell; simpl. rewrite Hb; simpl.
  replace (0 <=? Z.of_nat i) with true by (symmetry; apply Z.leb_le; lia).
  by rewrite Nat2Z.id, Hs.
Qed.

Lemma update_at i s f :
  cs !! i = Some s ->
  update (Ptr b (Z.of_nat i)) f (mkWorld h r d ok q)
  = Done tt (mkWorld (<[b := mkBlock (<[i := f s]> cs) true]> h) r d ok q).
Proof.
  intros Hs. unfold update, lookup_cell; simpl. rewrite Hb; simpl.
  replace (0 <=? Z.of_nat i) with true by (symmetry; apply Z.leb_le; lia).
  by rewrite Nat2Z.id, Hs.
Qed.

Lemma store_at i s s' :
  cs !! i = Some s ->
  store (Ptr b (Z.of_nat i)) s' (mkWorld h r d ok q)
  = Done tt (mkWorld (<[b := mkBlock (<[i := s']> cs) true]> h) r d ok q).
Proof. intros Hs. unfold store. by rewrite (update_at i s). Qed.

Lemma ft_swap_at i j x y :
  cs !! i = Some x -> cs !! j = Some y ->
  ft_swap (Ptr b (Z.of_nat i)) (Ptr b (Z.of_nat j)) (mkWorld h r d ok q)
  = Done tt (mkWorld (<[b := mkBlock (swap_at i j cs) true]> h) r d ok q).
Proof.
  intros Hi Hj. unfold ft_swap, bind.
  rewrite (load_at i x), (load_at j y) by done.
  rewrite (store_at i x) by done.
  assert (Hlt : (b < length h)%nat) by (eapply lookup_lt_Some; eauto).
  unfold store, update, lookup_cell; simpl.
  rewrite list_lookup_insert_eq by done; simpl.
  replace (0 <=? Z.of_nat j) with true by (symmetry; apply Z.leb_le; lia).
  rewrite Nat2Z.id.
  destruct (<[i:=y]> cs !! j) as [z|] eqn:Hz.
  - unfold set_heap; simpl. rewrite list_insert_insert_eq.
    unfold swap_at. by rewrite Hi, Hj.
  - apply lookup_ge_None in Hz. rewrite length_insert in Hz.
    apply lookup_lt_Some in Hj. lia.
Qed.
End Memory.

(** ** The exchange and the pure shuffle *)

Lemma swap_at_length {A} i j (l : list A) : length (swap_at i j l) = length l.
Proof.
  unfold swap_at. destruct (l !! i), (l !! j); try done.
  by rewrite !length_insert.
Qed.

Lemma swap_at_perm {A} i j (l : list A) : swap_at i j l ≡ₚ l.
Proof.
  unfold swap_at.
  destruct (l !! i) as [x|] eqn:Hi, (l !! j) as [y|] eqn:Hj; try done.
  by apply Permutation_insert_swap.
Qed.

Lemma lookup_middle {A} (pre arr post : list A) i :
  (i < length arr)%nat -> (pre ++ arr ++ post) !! (length pre + i)%nat = arr !! i.
Proof.
  intros Hi. rewrite lookup_app_r by lia.
  replace (length pre + i - length pre)%nat with i by lia.
  by rewrite lookup_app_l.
Qed.

Lemma swap_at_app {A} (pre arr post : list A) i j :
  (i < length arr)%nat -> (j < length arr)%nat ->
  swap_at (length pre + i) (length pre + j) (pre ++ arr ++ post)
  = pre ++ swap_at i j arr ++ post.
Proof.
  intros Hi Hj. unfold swap_at.
  rewrite (lookup_middle pre arr post i), (lookup_middle pre arr post j) by done.
  destruct (lookup_lt_is_Some_2 arr i Hi) as [x Hx].
  destruct (lookup_lt_is_Some_2 arr j Hj) as [y Hy].
  rewrite Hx, Hy.
  rewrite !insert_app_r, insert_app_l by done.
  rewrite insert_app_l by (by rewrite length_insert).
  done.
Qed.

Lemma shuffle_draws_length {A} ds (l : list A) :
  length (shuffle_draws ds l) = length l.
Proof.
  revert l. induction ds as [|j ds IH]; intros l; simpl; [done|].
  by rewrite IH, swap_at_length.
Qed.

Lemma shuffle_draws_perm {A} ds (l : list A) : shuffle_draws ds l ≡ₚ l.
Proof.
  revert l. induction ds as [|j ds IH]; intros l; simpl; [done|].
  by rewrite IH, swap_at_perm.
Qed.

Lemma draws_of_length r d i : length (draws_of r d i) = i.
Proof. revert d. induction i as [|i IH]; intros d; simpl; [done|]. by rewrite IH. Qed.

Lemma rem_draw_bound (x : N) (i : nat) :
  0 <= Z.rem (Z.of_N x) (Z.of_nat i + 1) <= Z.of_nat i.
Proof.
  rewrite Z.rem_mod_nonneg by lia.
  pose proof (Z.mod_pos_bound (Z.of_N x) (Z.of_nat i + 1)). lia.
Qed.

Lemma draws_of_valid r d i : valid_draws (draws_of r d i) = true.
Proof.
  revert d. induction i as [|i IH]; intros d; [done|].
  cbn [draws_of valid_draws]. rewrite IH, andb_true_r.
  apply Nat.leb_le. cbn [length]. rewrite draws_of_length.
  pose proof (rem_draw_bound (r d) (S i)). lia.
Qed.

(** ** The loop of [shuffle] on an array inside a block *)

Lemma shuffle_loop_at b pre post ok q r :
  forall i fuel arr h d,
    (i <= fuel)%nat -> (i < length arr)%nat ->
    h !! b = Some (mkBlock (pre ++ arr ++ post) true) ->
    shuffle_loop fuel (Ptr b (Z.of_nat (length pre)))
                 (Ptr b (Z.of_nat (length pre) + Z.of_nat i)) (mkWorld h r d ok q)
    = Done tt (mkWorld (<[b := mkBlock (pre ++ shuffle_draws (draws_of r d i) arr ++ post) true]> h)
                       r (d + i) ok q).
Proof.
  induction i as [|i IH]; intros fuel arr h d Hfuel Hlen Hb.
  - destruct fuel; simpl; unfold bind, ptr_ge; rewrite Nat.eqb_refl; unfold ret;
      replace (_ <=? _) with false by (symmetry; apply Z.leb_gt; lia);
      rewrite list_insert_id, Nat.add_0_r by done; done.
  - destruct fuel as [|fuel]; [lia|].
    cbn [shuffle_loop]. unfold bind at 1. unfold ptr_ge; cbn [ptr_add].
    rewrite Nat.eqb_refl. unfold ret at 1.
    replace (_ <=? _) with true by (symmetry; apply Z.leb_le; lia).
    unfold bind at 1. unfold rand; cbn [heap rng drawn alloc_ok requested].
    unfold bind at 1. unfold ptr_diff. rewrite Nat.eqb_refl. unfold ret at 1.
    replace (Z.of_nat (length pre) + Z.of_nat (S i) - Z.of_nat (length pre))
      with (Z.of_nat (S i)) by lia.
    pose proof (rem_draw_bound (r d) (S i)) as Hj.
    set (j := Z.to_nat (Z.rem (Z.of_N (r d)) (Z.of_nat (S i) + 1))).
    replace (Z.rem (Z.of_N (r d)) (Z.of_nat (S i) + 1)) with (Z.of_nat j) in * by (subst j; lia).
    rewrite <- !Nat2Z.inj_add.
    destruct (lookup_lt_is_Some_2 arr (S i) Hlen) as [x Hx].
    assert (Hjlt : (j < length arr)%nat) by lia.
    destruct (lookup_lt_is_Some_2 arr j Hjlt) as [y Hy].
    unfold bind at 1.
    rewrite (ft_swap_at b (pre ++ arr ++ post) h r (S d) ok q Hb _ _ x y).
    2:{ by rewrite lookup_middle. }
    2:{ by rewrite lookup_middle. }
    rewrite swap_at_app by done.
    replace (Z.of_nat (length pre + S i) + -1) with (Z.of_nat (length pre) + Z.of_nat i) by lia.
    rewrite (IH fuel (swap_at (S i) j arr)).
    + rewrite list_insert_insert_eq.
      cbn [draws_of shuffle_draws length]. rewrite draws_of_length.
      subst j. replace (d + S i)%nat with (S d + i)%nat by lia.
      done.
    + lia.
    + rewrite swap_at_length. lia.
    + apply list_lookup_insert_eq. eapply lookup_lt_Some; eauto.
Qed.

Lemma shuffle_at b pre arr post h r d ok q :
  h !! b = Some (mkBlock (pre ++ arr ++ post) true) ->
  shuffle (Ptr b (Z.of_nat (length pre))) (Z.of_nat (length arr)) (mkWorld h r d ok q)
  = Done tt (mkWorld
               (<[b := mkBlock (pre ++ shuffle_draws (draws_of r d (length arr - 1)) arr ++ post) true]> h)
               r (d + (length arr - 1)) ok q).
Proof.
  intros Hb. unfold shuffle; cbn [ptr_add].
  destruct arr as [|x arr].
  - simpl. unfold bind, ptr_ge. rewrite Nat.eqb_refl. unfold ret.
    replace (_ <=? _) with false by (symmetry; apply Z.leb_gt; lia).
    by rewrite list_insert_id, Nat.add_0_r.
  - cbn [length]. replace (S (length arr) - 1)%nat with (length arr) by lia.
    replace (Z.of_nat (length pre) + Z.of_nat (S (length arr)) + -1)
      with (Z.of_nat (length pre) + Z.of_nat (length arr)) by lia.
    apply shuffle_loop_at; [lia|simpl; lia|done].
Qed.

(** ** Arrays in memory *)

Lemma read_slots_inv w b o n sl :
  read_slots w (Ptr b o) n = Some sl ->
  exists pre post,
    heap w !! b = Some (mkBlock (pre ++ sl ++ post) true)
    /\ o = Z.of_nat (length pre) /\ n = Z.of_nat (length sl).
Proof.
  unfold read_slots. destruct (heap w !! b) as [[cs lv]|] eqn:Hb; [|done].
  simpl. destruct lv; [|done]. simpl.
  destruct (0 <=? o) eqn:Ho; [|done]. destruct (0 <=? n) eqn:Hn; [|done].
  destruct (o + n <=? Z.of_nat (length cs)) eqn:Hon; [|done]. simpl.
  apply Z.leb_le in Ho, Hn, Hon. intros [= <-].
  exists (take (Z.to_nat o) cs), (drop (Z.to_nat n) (drop (Z.to_nat o) cs)).
  rewrite (take_drop (Z.to_nat n)), (take_drop (Z.to_nat o)).
  rewrite !length_take, length_drop. split; [done|]. lia.
Qed.

Lemma read_slots_middle w b pre sl post :
  heap w !! b = Some (mkBlock (pre ++ sl ++ post) true) ->
  read_slots w (Ptr b (Z.of_nat (length pre))) (Z.of_nat (length sl)) = Some sl.
Proof.
  intros Hb. unfold read_slots. rewrite Hb. simpl.
  replace (0 <=? Z.of_nat (length pre)) with true by (symmetry; apply Z.leb_le; lia).
  replace (0 <=? Z.of_nat (length sl)) with true by (symmetry; apply Z.leb_le; lia).
  replace (_ <=? _) with true
    by (symmetry; apply Z.leb_le; rewrite !length_app; lia).
  simpl. rewrite !Nat2Z.id, drop_app_length, take_app_length. done.
Qed.

(** ** The loops of [create_distinct_random_list] *)

Lemma universe_lookup names (k : nat) nm :
  (k < Z.to_nat RANGE)%nat -> names !! k = Some nm ->
  universe names !! k = Some (mkManage nm (Z.of_nat k)).
Proof.
  intros Hk Hnm. unfold universe. rewrite list_lookup_imap, lookup_take_lt by done.
  by rewrite Hnm.
Qed.

Lemma universe_length names :
  (Z.to_nat RANGE <= length names)%nat -> length (universe names) = Z.to_nat RANGE.
Proof. intros H. unfold universe. rewrite length_imap, length_take. lia. Qed.

Lemma fill_loop_at b ok q r d names :
  (Z.to_nat RANGE <= length names)%nat ->
  forall k fuel i cs h,
    (k <= fuel)%nat -> -1 <= i -> i + 1 + Z.of_nat k = RANGE ->
    length cs = Z.to_nat RANGE ->
    h !! b = Some (mkBlock cs true) ->
    fill_loop fuel (Ptr b 0) names i (mkWorld h r d ok q)
    = Done tt (mkWorld
                 (<[b := mkBlock (take (Z.to_nat (i + 1)) cs
                                  ++ drop (Z.to_nat (i + 1)) (slot_of <$> universe names)) true]> h)
                 r d ok q).
Proof.
  intros Hnames. induction k as [|k IH]; intros fuel i cs h Hfuel Hi Hk Hcs Hb.
  - destruct fuel; simpl;
      replace (i + 1 <? RANGE) with false by (symmetry; apply Z.ltb_ge; lia);
      unfold ret;
      rewrite take_ge, drop_ge, app_nil_r, list_insert_id;
      rewrite ?length_fmap, ?universe_length; try done; lia.
  - destruct fuel as [|fuel]; [lia|]. cbn [fill_loop].
    replace (i + 1 <? RANGE) with true by (symmetry; apply Z.ltb_lt; lia).
    set (n := Z.to_nat (i + 1)).
    assert (Hn : i + 1 = Z.of_nat n) by lia.
    assert (Hlt : (n < Z.to_nat RANGE)%nat) by lia.
    destruct (lookup_lt_is_Some_2 names n ltac:(lia)) as [nm Hnm].
    destruct (lookup_lt_is_Some_2 cs n ltac:(lia)) as [s Hs].
    unfold bind at 1. unfold load_name.
    replace (0 <=? i + 1) with true by (symmetry; apply Z.leb_le; lia).
    fold n. rewrite Hnm. unfold ret at 1. cbn [ptr_add]. rewrite Z.add_0_l, Hn.
    assert (Hblt : (b < length h)%nat) by (eapply lookup_lt_Some; eauto).
    unfold bind at 1. rewrite (update_at b cs h r d ok q Hb n s) by done.
    unfold bind at 1.
    rewrite (update_at b (<[n := set_pseudo nm s]> cs) _ r d ok q
               ltac:(by apply list_lookup_insert_eq) n (set_pseudo nm s))
      by (apply list_lookup_insert_eq; lia).
    rewrite !list_insert_insert_eq.
    rewrite (IH fuel (Z.of_nat n) (<[n := set_id (Z.of_nat n) (set_pseudo nm s)]> cs));
      [|lia|lia|lia|by rewrite length_insert|by apply list_lookup_insert_eq].
    rewrite list_insert_insert_eq. do 3 f_equal.
    replace (Z.to_nat (Z.of_nat n + 1)) with (S n) by lia.
    rewrite (take_S_r _ n (slot_of (mkManage nm (Z.of_nat n))))
      by (apply list_lookup_insert_eq; lia).
    rewrite take_insert_ge by lia. rewrite <- app_assoc. f_equal.
    symmetry. rewrite (drop_S _ (slot_of (mkManage nm (Z.of_nat n))) n); [done|].
    rewrite list_lookup_fmap, (universe_lookup names n nm) by done. done.
Qed.

Lemma copy_step_list {A} (cs cd : list A) ps pd k s :
  cs !! ps = Some s -> (pd < length cd)%nat ->
  take (S pd) (<[pd := s]> cd) ++ take k (drop (S ps) cs) ++ drop (S pd + k) (<[pd := s]> cd)
  = take pd cd ++ take (S k) (drop ps cs) ++ drop (pd + S k) cd.
Proof.
  intros Hs Hpd.
  rewrite (take_S_r _ pd s) by (by apply list_lookup_insert_eq).
  rewrite take_insert_ge by lia. rewrite drop_insert_lt by lia.
  rewrite (drop_S cs s ps) by done. cbn [take].
  rewrite <- app_assoc. simpl.
  by replace (pd + S k)%nat with (S (pd + k)) by lia.
Qed.

Lemma copy_loop_at bs bd cs ok q r d len :
  bs <> bd ->
  forall k fuel i ps pd cd h,
    (k <= fuel)%nat -> Z.of_nat k = Z.max 0 (len - (i + 1)) ->
    (ps + k <= length cs)%nat -> (pd + k <= length cd)%nat ->
    h !! bs = Some (mkBlock cs true) ->
    h !! bd = Some (mkBlock cd true) ->
    copy_loop fuel (Ptr bd (Z.of_nat pd)) (Ptr bs (Z.of_nat ps)) i len (mkWorld h r d ok q)
    = Done tt (mkWorld
                 (<[bd := mkBlock (take pd cd ++ take k (drop ps cs) ++ drop (pd + k) cd) true]> h)
                 r d ok q).
Proof.
  intros Hne. induction k as [|k IH]; intros fuel i ps pd cd h Hfuel Hk Hps Hpd Hs Hd.
  - destruct fuel; simpl;
      replace (i + 1 <? len) with false by (symmetry; apply Z.ltb_ge; lia);
      unfold ret; rewrite Nat.add_0_r, take_drop, list_insert_id; done.
  - destruct fuel as [|fuel]; [lia|]. cbn [copy_loop].
    replace (i + 1 <? len) with true by (symmetry; apply Z.ltb_lt; lia).
    destruct (lookup_lt_is_Some_2 cs ps ltac:(lia)) as [s Hcs].
    destruct (lookup_lt_is_Some_2 cd pd ltac:(lia)) as [s' Hcd].
    unfold bind at 1. rewrite (load_at bs cs h r d ok q Hs ps s) by done.
    unfold bind at 1. rewrite (store_at bd cd h r d ok q Hd pd s') by done.
    cbn [ptr_add]. rewrite <- !(Nat2Z.inj_add _ 1), !Nat.add_1_r.
    rewrite (IH fuel (i + 1) (S ps) (S pd) (<[pd := s]> cd));
      [|lia|lia|lia|rewrite length_insert; lia
       |by rewrite list_lookup_insert_ne|apply list_lookup_insert_eq; eapply lookup_lt_Some; eauto].
    rewrite list_insert_insert_eq.
    by rewrite (copy_step_list cs cd ps pd k s) by (done || lia).
Qed.

(** ** Allocation *)

Lemma array_bytes_small n :
  0 <= n < 2 ^ 59 -> array_bytes n = n * sizeof_Manage.
Proof.
  intros Hn. unfold array_bytes, size_t, SIZE_MODULUS, sizeof_Manage.
  rewrite (Z.mod_small n) by lia. apply Z.mod_small. lia.
Qed.

Lemma malloc_served n h r d ok q :
  0 <= n < 2 ^ 59 -> ok q = true ->
  malloc (array_bytes n) (mkWorld h r d ok q)
  = Done (Ptr (length h) 0)
         (mkWorld (h ++ [mkBlock (replicate (Z.to_nat n) fresh_slot) true]) r d ok (S q)).
Proof.
  intros Hn Hok. unfold malloc; cbn [heap rng drawn alloc_ok requested].
  rewrite Hok, array_bytes_small by done. unfold sizeof_Manage.
  replace (n * 16 <=? PTRDIFF_MAX) with true
    by (symmetry; apply Z.leb_le; unfold PTRDIFF_MAX; lia).
  by rewrite Z.div_mul.
Qed.

Lemma malloc_refused size h r d ok q :
  ok q = false ->
  malloc size (mkWorld h r d ok q) = Done NULL (mkWorld h r d ok (S q)).
Proof.
  intros Hok. unfold malloc; cbn [heap rng drawn alloc_ok requested].
  by rewrite Hok, andb_false_r.
Qed.

(** The last two blocks of a heap. *)
Lemma lookup_last2_l {A} (h : list A) x y : (h ++ [x; y]) !! length h = Some x.
Proof. by rewrite lookup_app_r, Nat.sub_diag by lia. Qed.

Lemma lookup_last2_r {A} (h : list A) x y : (h ++ [x; y]) !! S (length h) = Some y.
Proof.
  rewrite lookup_app_r by lia. by replace (S (length h) - length h)%nat with 1%nat by lia.
Qed.

Lemma insert_last2_l {A} (h : list A) x y z : <[length h := z]> (h ++ [x; y]) = h ++ [z; y].
Proof. by rewrite insert_app_r_alt, Nat.sub_diag by lia. Qed.

Lemma insert_last2_r {A} (h : list A) x y z : <[S (length h) := z]> (h ++ [x; y]) = h ++ [x; z].
Proof.
  rewrite insert_app_r_alt by lia. by replace (S (length h) - length h)%nat with 1%nat by lia.
Qed.

Lemma lookup_last2_old {A} (h : list A) x y b e : h !! b = Some e -> (h ++ [x; y]) !! b = Some e.
Proof. intros He. by apply lookup_app_l_Some. Qed.

(** ** The exchange and the shuffle commute with a map over the elements *)

Lemma swap_at_fmap {A B} (f : A -> B) i j (l : list A) :
  swap_at i j (f <$> l) = f <$> swap_at i j l.
Proof.
  unfold swap_at. rewrite !list_lookup_fmap.
  destruct (l !! i), (l !! j); simpl; try done.
  by rewrite !list_fmap_insert.
Qed.

Lemma shuffle_draws_fmap {A B} (f : A -> B) ds (l : list A) :
  shuffle_draws ds (f <$> l) = f <$> shuffle_draws ds l.
Proof.
  revert l. induction ds as [|j ds IH]; intros l; simpl; [done|].
  by rewrite swap_at_fmap, IH.
Qed.

Lemma mapM_slot_of (l : list Manage) : mapM slot_val (slot_of <$> l) = Some l.
Proof.
  apply mapM_Some. induction l as [|[p i] l IH]; constructor; done.
Qed.

(** ** [create_distinct_random_list] on an accepted request *)

Lemma create_served len names h r d ok q :
  0 <= len <= RANGE -> (Z.to_nat RANGE <= length names)%nat ->
  ok q = true -> ok (S q) = true ->
  let shuffled := shuffle_draws (draws_of r d 5) (universe names) in
  create_distinct_random_list len names (mkWorld h r d ok q)
  = Done (Ptr (S (length h)) 0)
         (mkWorld (h ++ [mkBlock (slot_of <$> shuffled) false;
                         mkBlock (slot_of <$> take (Z.to_nat len) shuffled) true])
                  r (d + 5) ok (S (S q))).
Proof.
  intros Hlen Hnames Hok1 Hok2 shuffled. unfold create_distinct_random_list.
  replace (len >? RANGE) with false by (rewrite Z.gtb_ltb; symmetry; apply Z.ltb_ge; lia).
  unfold bind at 1. rewrite malloc_served by (done || (unfold RANGE; lia)).
  unfold bind at 1. rewrite malloc_served by (done || (unfold RANGE in *; lia)).
  cbn [is_null orb]. rewrite length_app, <- app_assoc; cbn [length app].
  replace (length h + 1)%nat with (S (length h)) by lia.
  set (U0 := replicate (Z.to_nat RANGE) fresh_slot).
  set (R0 := replicate (Z.to_nat len) fresh_slot).
  unfold bind at 1.
  rewrite (fill_loop_at (length h) ok (S (S q)) r d names Hnames (Z.to_nat RANGE) _ (-1) U0);
    [|done|lia|done|done|apply lookup_last2_l].
  change (Z.to_nat (-1 + 1)) with 0%nat. rewrite take_0, drop_0, app_nil_l, insert_last2_l.
  unfold bind at 1.
  pose proof (shuffle_at (length h) [] (slot_of <$> universe names) []
                (h ++ [mkBlock (slot_of <$> universe names) true; mkBlock R0 true])
                r d ok (S (S q))) as Hsh.
  rewrite app_nil_l, app_nil_r, length_fmap, universe_length in Hsh by done.
  change (Z.of_nat (length [])) with 0 in Hsh.
  change (Z.of_nat (Z.to_nat RANGE)) with RANGE in Hsh.
  rewrite Hsh by apply lookup_last2_l. clear Hsh.
  change (Z.to_nat RANGE - 1)%nat with 5%nat.
  rewrite app_nil_l, app_nil_r, insert_last2_l, shuffle_draws_fmap. fold shuffled.
  unfold bind at 1.
  assert (Hshl : length shuffled = Z.to_nat RANGE)
    by (unfold shuffled; by rewrite shuffle_draws_length, universe_length).
  rewrite (copy_loop_at (length h) (S (length h)) (slot_of <$> shuffled) ok (S (S q)) r (d + 5) len
             ltac:(lia) (Z.to_nat len) _ (-1) 0%nat 0%nat R0);
    [|done|lia|rewrite length_fmap; lia|unfold R0; rewrite length_replicate; lia
     |apply lookup_last2_l|apply lookup_last2_r].
  rewrite insert_last2_r, take_0, drop_0, app_nil_l, Nat.add_0_l.
  rewrite (drop_ge R0) by (unfold R0; by rewrite length_replicate).
  rewrite app_nil_r, <- fmap_take.
  unfold bind at 1. unfold free; cbn [heap]. rewrite lookup_last2_l; cbn [live andb cells].
  change (0 =? 0) with true; cbn [andb]. unfold set_heap; cbn [heap rng drawn alloc_ok requested].
  by rewrite insert_last2_l.
Qed.

(** ** The universe and what the shuffle leaves of it *)

Lemma elem_of_universe names e :
  e ∈ universe names ->
  exists (k : nat) nm,
    (k < Z.to_nat RANGE)%nat /\ names !! k = Some nm /\ e = mkManage nm (Z.of_nat k).
Proof.
  unfold universe. intros (k & nm & -> & Hk)%elem_of_lookup_imap.
  apply lookup_take_Some in Hk as [Hk Hlt]. eauto.
Qed.

Lemma universe_ids names :
  id <$> universe names = Z.of_nat <$> seq 0 (length (take (Z.to_nat RANGE) names)).
Proof.
  unfold universe. rewrite fmap_imap.
  by rewrite (imap_seq_0 _ (fun k => Z.of_nat k)).
Qed.

Lemma universe_ids_NoDup names : NoDup (id <$> universe names).
Proof.
  rewrite universe_ids. apply NoDup_fmap_2; [|apply NoDup_seq].
  intros x y. lia.
Qed.



Lemma draws_of_lookup r d i t :
  (t < i)%nat ->
  draws_of r d i !! t
  = Some (Z.to_nat (Z.rem (Z.of_N (r (d + t)%nat)) (Z.of_nat (i - t) + 1))).
Proof.
  revert d t. induction i as [|i IH]; intros d [|t] Ht; try lia.
  - cbn [draws_of]. by rewrite Nat.add_0_r, Nat.sub_0_r.
  - cbn [draws_of]. rewrite lookup_cons_ne_0 by done. simpl Nat.pred.
    rewrite IH by lia. by replace (S d + t)%nat with (d + S t)%nat by lia.
Qed.

(** ** Pools shorter than [RANGE] *)

Lemma fill_loop_short b ok q r d names :
  (length names < Z.to_nat RANGE)%nat ->
  forall k fuel i cs h,
    (k <= fuel)%nat -> -1 <= i -> i + 1 + Z.of_nat k = RANGE ->
    i + 1 <= Z.of_nat (length names) ->
    length cs = Z.to_nat RANGE ->
    h !! b = Some (mkBlock cs true) ->
    fill_loop fuel (Ptr b 0) names i (mkWorld h r d ok q) = Undefined.
Proof.
  intros Hnames. induction k as [|k IH]; intros fuel i cs h Hfuel Hi Hk Hin Hcs Hb; [lia|].
  destruct fuel as [|fuel]; [lia|]. cbn [fill_loop].
  replace (i + 1 <? RANGE) with true by (symmetry; apply Z.ltb_lt; lia).
  set (n := Z.to_nat (i + 1)).
  assert (Hn : i + 1 = Z.of_nat n) by lia.
  unfold bind at 1. unfold load_name.
  replace (0 <=? i + 1) with true by (symmetry; apply Z.leb_le; lia).
  fold n. destruct (names !! n) as [nm|] eqn:Hnm; [|done].
  apply lookup_lt_Some in Hnm as Hlt.
  destruct (lookup_lt_is_Some_2 cs n ltac:(lia)) as [s Hs].
  unfold ret at 1. cbn [ptr_add]. rewrite Z.add_0_l, Hn.
  unfold bind at 1. rewrite (update_at b cs h r d ok q Hb n s) by done.
  unfold bind at 1.
  rewrite (update_at b (<[n := set_pseudo nm s]> cs) _ r d ok q
             ltac:(apply list_lookup_insert_eq; eapply lookup_lt_Some; eauto) n (set_pseudo nm s))
    by (apply list_lookup_insert_eq; lia).
  rewrite !list_insert_insert_eq.
  apply (IH fuel (Z.of_nat n) (<[n := set_id (Z.of_nat n) (set_pseudo nm s)]> cs));
    [lia|lia|lia|lia|by rewrite length_insert|].
  apply list_lookup_insert_eq. eapply lookup_lt_Some; eauto.
Qed.

Lemma create_short len names h r d ok q :
  0 <= len <= RANGE -> (length names < Z.to_nat RANGE)%nat ->
  ok q = true -> ok (S q) = true ->
  create_distinct_random_list len names (mkWorld h r d ok q) = Undefined.
Proof.
  intros Hlen Hnames Hok1 Hok2. unfold create_distinct_random_list.
  replace (len >? RANGE) with false by (rewrite Z.gtb_ltb; symmetry; apply Z.ltb_ge; lia).
  unfold bind at 1. rewrite malloc_served by (done || (unfold RANGE; lia)).
  unfold bind at 1. rewrite malloc_served by (done || (unfold RANGE in *; lia)).
  cbn [is_null orb]. rewrite <- app_assoc; cbn [app].
  unfold bind at 1.
  rewrite (fill_loop_short (length h) ok (S (S q)) r d names Hnames (Z.to_nat RANGE) _ (-1)
             (replicate (Z.to_nat RANGE) fresh_slot));
    [done|done|lia|done|lia|done|apply lookup_last2_l].
Qed.

(** * The sampler: [create_distinct_random_list] *)

(** What an accepted request returns, in terms of the shuffled universe. *)
Lemma create_result len names w :
  0 <= len <= RANGE -> (Z.to_nat RANGE <= length names)%nat ->
  alloc_ok w (requested w) = true -> alloc_ok w (S (requested w)) = true ->
  let shuffled := shuffle_draws (draws_of (rng w) (drawn w) 5) (universe names) in
  exists w',
    create_distinct_random_list len names w = Done (Ptr (S (length (heap w))) 0) w'
    /\ heap w' = heap w ++ [mkBlock (slot_of <$> shuffled) false;
                            mkBlock (slot_of <$> take (Z.to_nat len) shuffled) true]
    /\ read_array w' (Ptr (S (length (heap w))) 0) len = Some (take (Z.to_nat len) shuffled)
    /\ shuffled ≡ₚ universe names.
Proof.
  intros Hlen Hnames Hok1 Hok2 shuffled.
  pose proof (create_served len names (heap w) (rng w) (drawn w) (alloc_ok w) (requested w)
                Hlen Hnames Hok1 Hok2) as Hrun.
  eexists. split; [destruct w; exact Hrun|]. split; [done|]. split.
  - unfold read_array, read_slots; cbn [heap]. rewrite lookup_last2_r; cbn [live cells andb].
    assert (Hshl : length shuffled = Z.to_nat RANGE)
      by (unfold shuffled; by rewrite shuffle_draws_length, universe_length).
    fold shuffled. rewrite length_fmap, length_take, Hshl.
    replace (0 <=? len) with true by (symmetry; apply Z.leb_le; lia).
    replace (0 + len <=? _) with true by (symmetry; apply Z.leb_le; lia).
    cbn [andb]. change (Z.to_nat 0) with 0%nat. rewrite drop_0, take_ge.
    + apply mapM_slot_of.
    + rewrite length_fmap, length_take. lia.
  - apply shuffle_draws_perm.
Qed.

Lemma imap_entry_pseudo (g : nat -> Z) (l : list string) :
  pseudo <$> imap (fun k nm => mkManage nm (g k)) l = l.
Proof.
  revert g. induction l as [|x l IH]; intros g; [done|].
  cbn [imap fmap list_fmap pseudo]. f_equal. apply (IH (g ∘ S)).
Qed.

Lemma universe_labels names :
  (Z.to_nat RANGE <= length names)%nat ->
  id <$> universe names = [0; 1; 2; 3; 4; 5]
  /\ pseudo <$> universe names = take (Z.to_nat RANGE) names.
Proof.
  intros Hn. split.
  - rewrite universe_ids, length_take.
    by replace (Z.to_nat RANGE `min` length names)%nat with 6%nat by (change (Z.to_nat RANGE) with 6%nat in *; lia).
  - unfold universe. apply imap_entry_pseudo.
Qed.

(** C1 (amended to the pools the code supports). For every pool of at
    least [RANGE = 6] labels and every [count] with [0 <= count <= 6],
    when both allocations are served, [create_distinct_random_list]
    returns an array of exactly [count] entries whose [id]s are pairwise
    distinct and lie in [[0, 6)], and each entry's [pseudo] is the
    label of the pool at its [id]. *)
Theorem sample_distinct_entries names count w :
  (6 <= length names)%nat -> 0 <= count <= 6 ->
  alloc_ok w (requested w) = true -> alloc_ok w (S (requested w)) = true ->
  exists res w' l,
    create_distinct_random_list count names w = Done res w'
    /\ read_array w' res count = Some l
    /\ Z.of_nat (length l) = count
    /\ NoDup (id <$> l)
    /\ forall e, e ∈ l ->
         0 <= id e < RANGE /\ names !! Z.to_nat (id e) = Some (pseudo e).
Proof.
  intros Hnames Hcount Hok1 Hok2.
  destruct (create_result count names w Hcount Hnames Hok1 Hok2) as (w' & Hrun & _ & Hread & Hperm).
  set (shuffled := shuffle_draws (draws_of (rng w) (drawn w) 5) (universe names)) in *.
  exists (Ptr (S (length (heap w))) 0), w', (take (Z.to_nat count) shuffled).
  split; [done|]. split; [done|]. split; [|split].
  - rewrite length_take, (Permutation_length Hperm), universe_length by done.
    change (Z.to_nat RANGE) with 6%nat. lia.
  - rewrite fmap_take. eapply sublist_NoDup; [|apply sublist_take].
    rewrite Hperm. apply universe_ids_NoDup.
  - intros e He. apply elem_of_take in He as (i & He & _).
    apply list_elem_of_lookup_2 in He. rewrite Hperm in He.
    apply elem_of_universe in He as (k & nm & Hk & Hnm & ->). cbn [id pseudo].
    rewrite Nat2Z.id. split; [|done]. unfold RANGE in *. lia.
Qed.

(** C4 (amended to the bound the code checks). For every pool and every
    [count] greater than [RANGE = 6], [create_distinct_random_list]
    returns [NULL] at once: nothing is allocated, no draw is made and
    the memory is left as it was. *)
Theorem sample_refuses_above_RANGE names count w :
  RANGE < count -> create_distinct_random_list count names w = Done NULL w.
Proof.
  intros Hc. unfold create_distinct_random_list.
  by replace (count >? RANGE) with true by (rewrite Z.gtb_ltb; symmetry; apply Z.ltb_lt; lia).
Qed.


(** C10. [create_distinct_random_list] checks [len] against the constant
    [RANGE = 6] and never looks at the size of the pool. For every
    [count] with [0 <= count <= 6] (the allocations being served) the
    request is not refused. With a pool of 6 labels or more, whatever
    [count] is, the universe that is built and shuffled (and freed on
    return) has exactly 6 entries, a rearrangement of the entries
    [(names[k], k)] for [k = 0..5]. With a shorter pool the same 6 reads
    are attempted and the one at index [length names] falls outside the
    pool. *)
Theorem create_checks_RANGE_only names count w :
  0 <= count <= 6 ->
  alloc_ok w (requested w) = true -> alloc_ok w (S (requested w)) = true ->
  ((6 <= length names)%nat ->
   exists res w' shuffled,
     create_distinct_random_list count names w = Done res w'
     /\ is_null res = false
     /\ heap w' !! length (heap w) = Some (mkBlock (slot_of <$> shuffled) false)
     /\ shuffled ≡ₚ universe names
     /\ length shuffled = 6%nat
     /\ id <$> universe names = [0; 1; 2; 3; 4; 5]
     /\ pseudo <$> universe names = take 6 names)
  /\ ((length names < 6)%nat ->
      create_distinct_random_list count names w = Undefined).
Proof.
  intros Hcount Hok1 Hok2. split; intros Hnames.
  - destruct (create_result count names w Hcount Hnames Hok1 Hok2)
      as (w' & Hrun & Hheap & _ & Hperm).
    destruct (universe_labels names Hnames) as [Hids Hlabels].
    eexists _, w', _. split; [exact Hrun|]. split; [done|].
    split; [rewrite Hheap; apply lookup_last2_l|]. split; [exact Hperm|].
    split; [|done].
    by rewrite (Permutation_length Hperm), universe_length.
  - destruct w as [h r d ok q]. by apply create_short.
Qed.

(** * The shuffler: [shuffle] *)

(** C2. For every sequence of [len >= 0] objects in memory and every
    stream of [rand()] results, [shuffle] terminates without undefined
    behaviour and leaves in the same place a sequence that is a
    permutation of the original one; it makes [len - 1] draws (none for
    [len = 0]). *)
Theorem shuffle_permutation w array len sl :
  read_slots w array len = Some sl ->
  exists w' sl',
    shuffle array len w = Done tt w'
    /\ read_slots w' array len = Some sl'
    /\ sl' ≡ₚ sl
    /\ drawn w' = (drawn w + (Z.to_nat len - 1))%nat.
Proof.
  intros Hread. destruct array as [|b o]; [done|].
  destruct (read_slots_inv _ _ _ _ _ Hread) as (pre & post & Hb & -> & ->).
  destruct w as [h r d ok q]; cbn [heap drawn] in *.
  rewrite (shuffle_at b pre sl post) by done.
  set (sl' := shuffle_draws (draws_of r d (length sl - 1)) sl).
  assert (Hlen : length sl' = length sl) by apply shuffle_draws_length.
  eexists _, sl'. split; [done|]. split; [|split].
  - rewrite <- Hlen. apply (read_slots_middle _ b pre _ post); cbn [heap].
    apply list_lookup_insert_eq. eapply lookup_lt_Some; eauto.
  - apply shuffle_draws_perm.
  - cbn [drawn]. by rewrite Nat2Z.id.
Qed.

(** C9. On a sequence of length 0 or 1, wherever it is, [shuffle] is a
    no-op: the loop condition is false at once, the world is returned
    as it was: same memory, and no result of [rand()] consumed. *)
Theorem shuffle_short_noop b o w :
  shuffle (Ptr b o) 0 w = Done tt w /\ shuffle (Ptr b o) 1 w = Done tt w.
Proof.
  split; unfold shuffle;
    [change (Z.to_nat 0) with 0%nat|change (Z.to_nat 1) with 1%nat];
    cbn [ptr_add shuffle_loop]; unfold bind, ptr_ge; rewrite Nat.eqb_refl; unfold ret;
    by replace (_ <=? _) with false by (symmetry; apply Z.leb_gt; lia).
Qed.

(** ** Each arrangement comes from exactly one sequence of draws *)

Lemma swap_at_lookup_l {A} i j (l : list A) x y :
  l !! i = Some x -> l !! j = Some y -> swap_at i j l !! i = Some y.
Proof.
  intros Hi Hj. unfold swap_at. rewrite Hi, Hj.
  assert (Hlt : (i < length l)%nat) by (eapply lookup_lt_Some; eauto).
  destruct (decide (i = j)) as [->|Hne].
  - rewrite list_insert_insert_eq, list_lookup_insert_eq by done. congruence.
  - rewrite list_lookup_insert_ne by done. by rewrite list_lookup_insert_eq.
Qed.

Lemma valid_draws_cons j ds :
  valid_draws (j :: ds) = true <-> (j <= S (length ds))%nat /\ valid_draws ds = true.
Proof.
  cbn [valid_draws length]. rewrite andb_true_iff, Nat.leb_le. done.
Qed.

Lemma shuffle_draws_app {A} ds (l suffix : list A) :
  valid_draws ds = true -> (length ds < length l)%nat ->
  shuffle_draws ds (l ++ suffix) = shuffle_draws ds l ++ suffix.
Proof.
  revert l. induction ds as [|j ds IH]; intros l Hv Hlen; [done|].
  apply valid_draws_cons in Hv as [Hj Hv]. cbn [shuffle_draws length] in *.
  pose proof (swap_at_app [] l suffix (S (length ds)) j ltac:(lia) ltac:(lia)) as Hsw.
  cbn [length app Nat.add] in Hsw. rewrite Hsw.
  apply IH; [done|]. rewrite swap_at_length. lia.
Qed.

Lemma shuffle_draws_last {A} j ds (l : list A) y :
  length l = S (S (length ds)) -> (j <= S (length ds))%nat -> valid_draws ds = true ->
  l !! j = Some y ->
  shuffle_draws (j :: ds) l
  = shuffle_draws ds (take (S (length ds)) (swap_at (S (length ds)) j l)) ++ [y].
Proof.
  intros Hlen Hj Hv Hy. cbn [shuffle_draws length].
  set (l1 := swap_at (S (length ds)) j l).
  assert (Hl1 : length l1 = S (S (length ds))) by (unfold l1; by rewrite swap_at_length).
  destruct (lookup_lt_is_Some_2 l (S (length ds)) ltac:(lia)) as [x Hx].
  assert (Hlast : l1 !! S (length ds) = Some y) by (by eapply swap_at_lookup_l).
  assert (Hsplit : l1 = take (S (length ds)) l1 ++ [y]).
  { rewrite <- (take_S_r _ _ _ Hlast). symmetry. apply take_ge. lia. }
  rewrite Hsplit at 1. apply shuffle_draws_app; [done|].
  rewrite length_take. lia.
Qed.

Lemma shuffle_draws_unique {A} :
  forall n (l p : list A),
    length l = S n -> NoDup l -> p ≡ₚ l ->
    exists ds,
      (length ds = n /\ valid_draws ds = true /\ shuffle_draws ds l = p)
      /\ forall ds', length ds' = n -> valid_draws ds' = true ->
                     shuffle_draws ds' l = p -> ds' = ds.
Proof.
  induction n as [|n IH]; intros l p Hlen Hnd Hperm.
  - destruct l as [|x [|? ?]]; try done.
    apply Permutation_singleton_r in Hperm as ->.
    exists []. split; [done|]. by intros [|? ?].
  - assert (Hplen : length p = S (S n)) by (by rewrite Hperm).
    destruct p as [|z p0 _] using rev_ind; [done|].
    rewrite length_app in Hplen; cbn [length] in Hplen.
    assert (Hz : z ∈ l) by (rewrite <- Hperm; apply elem_of_app; right; left).
    apply list_elem_of_lookup in Hz as [j Hj].
    assert (Hjlt : (j <= S n)%nat) by (apply lookup_lt_Some in Hj; lia).
    set (l1 := swap_at (S n) j l).
    assert (Hl1 : l1 ≡ₚ l) by apply swap_at_perm.
    assert (Hl1len : length l1 = S (S n)) by (unfold l1; by rewrite swap_at_length).
    destruct (lookup_lt_is_Some_2 l (S n) ltac:(lia)) as [x Hx].
    assert (Hlast : l1 !! S n = Some z) by (by eapply swap_at_lookup_l).
    assert (Hsplit : l1 = take (S n) l1 ++ [z]).
    { rewrite <- (take_S_r _ _ _ Hlast). symmetry. apply take_ge. lia. }
    assert (Hrest : p0 ≡ₚ take (S n) l1).
    { apply (inj (.++ [z])). by rewrite <- Hsplit, Hl1. }
    assert (Hnd1 : NoDup (take (S n) l1)).
    { eapply sublist_NoDup; [|apply sublist_take]. by rewrite Hl1. }
    destruct (IH (take (S n) l1) p0 ltac:(rewrite length_take; lia) Hnd1 Hrest)
      as (ds & (Hdlen & Hdv & Hds) & Huniq).
    exists (j :: ds). split.
    + split; [cbn [length]; lia|]. split.
      * apply valid_draws_cons. split; [lia|done].
      * rewrite (shuffle_draws_last j ds l z) by (done || lia).
        rewrite Hdlen. fold l1. by rewrite Hds.
    + intros [|j' ds'] Hlen' Hv' Hsh'; [done|].
      cbn [length] in Hlen'. apply valid_draws_cons in Hv' as [Hj' Hv'].
      destruct (lookup_lt_is_Some_2 l j' ltac:(lia)) as [y' Hy'].
      rewrite (shuffle_draws_last j' ds' l y') in Hsh' by (done || lia).
      apply app_inj_tail in Hsh' as [Hsh' ->].
      assert (j' = j) as -> by exact (NoDup_lookup l j' j z Hnd Hy' Hj).
      f_equal. apply Huniq; [lia|done|].
      replace (length ds') with n in Hsh' by lia. done.
Qed.

(** ** Counting the sequences of draws *)

Lemma all_draws_spec n ds :
  ds ∈ all_draws n <-> length ds = n /\ valid_draws ds = true.
Proof.
  revert ds. induction n as [|n IH]; intros ds.
  - cbn [all_draws]. rewrite list_elem_of_singleton.
    split; [by intros ->|]. by intros [?%nil_length_inv _].
  - cbn [all_draws]. rewrite list_elem_of_bind. split.
    + intros (j & Hds & Hj). apply list_elem_of_fmap in Hds as (ds' & -> & Hds').
      apply IH in Hds' as [Hlen Hv]. apply elem_of_seq in Hj.
      split; [cbn [length]; lia|]. apply valid_draws_cons. split; [lia|done].
    + intros [Hlen Hv]. destruct ds as [|j ds']; [done|].
      apply valid_draws_cons in Hv as [Hj Hv]. cbn [length] in Hlen.
      exists j. split.
      * apply list_elem_of_fmap. exists ds'. split; [done|]. apply IH. split; [lia|done].
      * apply elem_of_seq. lia.
Qed.

Lemma length_bind_const {A B} (f : A -> list B) (l : list A) k :
  (forall x, length (f x) = k) -> length (l ≫= f) = (length l * k)%nat.
Proof.
  intros Hf. induction l as [|x l IH]; [done|].
  cbn [mbind list_bind length]. change (length (f x ++ (l ≫= f)) = (k + length l * k)%nat).
  by rewrite length_app, Hf, IH.
Qed.

Lemma all_draws_length n : length (all_draws n) = fact (S n).
Proof.
  induction n as [|n IH]; [done|].
  cbn [all_draws]. rewrite (length_bind_const _ _ (fact (S n))).
  - rewrite length_seq. change (fact (S (S n))) with (S (S n) * fact (S n))%nat. lia.
  - intros j. by rewrite length_fmap.
Qed.

(** ** Streams of [rand()] results that realise given draws *)

Lemma valid_draws_lookup ds t j :
  valid_draws ds = true -> ds !! t = Some j -> (j <= length ds - t)%nat.
Proof.
  revert t. induction ds as [|j' ds IH]; intros t Hv Ht; [done|].
  apply valid_draws_cons in Hv as [Hj Hv]. destruct t as [|t].
  - injection Ht as ->. cbn [length]. lia.
  - cbn [length]. apply (IH t Hv Ht).
Qed.

Lemma draws_of_stream ds :
  valid_draws ds = true -> draws_of (stream_of ds) 0 (length ds) = ds.
Proof.
  intros Hv. apply list_eq. intros t.
  destruct (decide (t < length ds)%nat) as [Ht|Ht].
  - rewrite draws_of_lookup by done. cbn [Nat.add].
    destruct (lookup_lt_is_Some_2 ds t Ht) as [j Hj]. rewrite Hj. f_equal.
    pose proof (valid_draws_lookup ds t j Hv Hj) as Hjle.
    unfold stream_of. rewrite (nth_lookup_Some _ _ _ _ Hj).
    rewrite Z.rem_small by lia. lia.
  - rewrite !lookup_ge_None_2; [done|lia|rewrite draws_of_length; lia].
Qed.

Lemma shuffle_run w array len sl r :
  read_slots w array len = Some sl ->
  exists w',
    shuffle array len (with_draws r w) = Done tt w'
    /\ read_slots w' array len
       = Some (shuffle_draws (draws_of r 0 (length sl - 1)) sl).
Proof.
  intros Hread. destruct array as [|b o]; [done|].
  destruct (read_slots_inv _ _ _ _ _ Hread) as (pre & post & Hb & -> & ->).
  unfold with_draws. rewrite (shuffle_at b pre sl post) by done.
  set (sl' := shuffle_draws (draws_of r 0 (length sl - 1)) sl).
  assert (Hlen : length sl' = length sl) by apply shuffle_draws_length.
  eexists. split; [done|].
  rewrite <- Hlen. apply (read_slots_middle _ b pre _ post); cbn [heap].
  apply list_lookup_insert_eq. eapply lookup_lt_Some; eauto.
Qed.

(** C5. Take a sequence of [L] pairwise distinct objects and any
    arrangement [p] of it. Among the sequences of indices the loop can
    compute (one index in [[0, i]] for each [i] from [L - 1] down to 1;
    there are [L!] of them, [all_draws]), exactly one, [ds], makes
    [shuffle] leave [p]: for every stream of [rand()] results, the
    indices [rand() % (i + 1)] computed from it are [ds] if and only if
    the run ends with [p] in memory; and [ds] is computed from some
    stream. So when every index is uniform over its range, each of the
    [L!] arrangements has the same probability. *)
Theorem shuffle_unbiased w array len sl p :
  read_slots w array len = Some sl -> NoDup sl -> p ≡ₚ sl ->
  exists ds,
    ds ∈ all_draws (length sl - 1)
    /\ (forall r,
          draws_of r 0 (length sl - 1) = ds <->
          exists w', shuffle array len (with_draws r w) = Done tt w'
                     /\ read_slots w' array len = Some p)
    /\ draws_of (stream_of ds) 0 (length sl - 1) = ds
    /\ length (all_draws (length sl - 1)) = fact (length sl)
    /\ forall ds', ds' ∈ all_draws (length sl - 1) <->
                   length ds' = (length sl - 1)%nat /\ valid_draws ds' = true.
Proof.
  intros Hread Hnd Hperm.
  assert (Hcount : length (all_draws (length sl - 1)) = fact (length sl)).
  { rewrite all_draws_length. destruct sl as [|x sl]; [done|].
    cbn [length]. by rewrite Nat.sub_succ, Nat.sub_0_r. }
  destruct sl as [|x sl0] eqn:Hsl.
  - apply Permutation_nil_r in Hperm as ->. exists []. cbn [length Nat.sub].
    split; [by left|]. split; [|split; [done|split; [done|apply all_draws_spec]]].
    intros r. split; [intros _|done].
    destruct (shuffle_run w array len [] r Hread) as (w' & Hrun & Hres). eauto.
  - rewrite <- Hsl in *. set (n := (length sl - 1)%nat) in *.
    assert (Hlen : length sl = S n) by (subst sl n; cbn [length]; lia).
    destruct (shuffle_draws_unique n sl p Hlen Hnd Hperm) as (ds & (Hdl & Hdv & Hds) & Huniq).
    exists ds. split; [by apply all_draws_spec|].
    split; [|split; [by rewrite <- Hdl; apply draws_of_stream
                    |split; [done|apply all_draws_spec]]].
    intros r. destruct (shuffle_run w array len sl r Hread) as (w' & Hrun & Hres).
    fold n in Hres. split.
    + intros Hr. exists w'. split; [done|]. by rewrite Hres, Hr, Hds.
    + intros (w2 & Hrun2 & Hres2). rewrite Hrun in Hrun2. injection Hrun2 as <-.
      rewrite Hres in Hres2. injection Hres2 as Hres2.
      apply Huniq; [apply draws_of_length|apply draws_of_valid|done].
Qed.

(** * The partitioner: [split_into_groups] *)

(** The iterations that copy into the second group. *)
Lemma split_loop_second bs bb cs ok q r d len ptr_a :
  bs <> bb ->
  forall k fuel i ps pb cb h,
    (k <= fuel)%nat -> Z.of_nat k = Z.max 0 (len - (i + 1)) -> len ÷ 2 <= i + 1 ->
    (ps + k <= length cs)%nat -> (pb + k <= length cb)%nat ->
    h !! bs = Some (mkBlock cs true) ->
    h !! bb = Some (mkBlock cb true) ->
    split_loop fuel (Ptr bs (Z.of_nat ps)) ptr_a (Ptr bb (Z.of_nat pb)) i len
               (mkWorld h r d ok q)
    = Done tt (mkWorld
                 (<[bb := mkBlock (take pb cb ++ take k (drop ps cs) ++ drop (pb + k) cb) true]> h)
                 r d ok q).
Proof.
  intros Hne. induction k as [|k IH]; intros fuel i ps pb cb h Hfuel Hk Hhalf Hps Hpb Hs Hd.
  - destruct fuel; simpl;
      replace (i + 1 <? len) with false by (symmetry; apply Z.ltb_ge; lia);
      unfold ret; rewrite Nat.add_0_r, take_drop, list_insert_id; done.
  - destruct fuel as [|fuel]; [lia|]. cbn [split_loop].
    replace (i + 1 <? len) with true by (symmetry; apply Z.ltb_lt; lia).
    replace (i + 1 <? len ÷ 2) with false by (symmetry; apply Z.ltb_ge; lia).
    destruct (lookup_lt_is_Some_2 cs ps ltac:(lia)) as [s Hcs].
    destruct (lookup_lt_is_Some_2 cb pb ltac:(lia)) as [s' Hcb].
    unfold bind at 1. rewrite (load_at bs cs h r d ok q Hs ps s) by done.
    unfold bind at 1. rewrite (store_at bb cb h r d ok q Hd pb s') by done.
    cbn [ptr_add]. rewrite <- !(Nat2Z.inj_add _ 1), !Nat.add_1_r.
    rewrite (IH fuel (i + 1) (S ps) (S pb) (<[pb := s]> cb));
      [|lia|lia|lia|lia|rewrite length_insert; lia
       |by rewrite list_lookup_insert_ne|apply list_lookup_insert_eq; eapply lookup_lt_Some; eauto].
    rewrite list_insert_insert_eq.
    by rewrite (copy_step_list cs cb ps pb k s) by (done || lia).
Qed.

(** The iterations that copy into the first group, then the others. *)
Lemma split_loop_first bs ba bb cs cb ok q r d len kb pb :
  bs <> ba -> bs <> bb -> ba <> bb ->
  forall ka fuel i ps pa ca h,
    (ka + kb <= fuel)%nat ->
    Z.of_nat ka = len ÷ 2 - (i + 1) ->
    Z.of_nat (ka + kb) = Z.max 0 (len - (i + 1)) ->
    (ps + ka + kb <= length cs)%nat -> (pa + ka <= length ca)%nat ->
    (pb + kb <= length cb)%nat ->
    h !! bs = Some (mkBlock cs true) ->
    h !! ba = Some (mkBlock ca true) ->
    h !! bb = Some (mkBlock cb true) ->
    split_loop fuel (Ptr bs (Z.of_nat ps)) (Ptr ba (Z.of_nat pa)) (Ptr bb (Z.of_nat pb)) i len
               (mkWorld h r d ok q)
    = Done tt (mkWorld
                 (<[bb := mkBlock (take pb cb ++ take kb (drop (ps + ka) cs)
                                   ++ drop (pb + kb) cb) true]>
                    (<[ba := mkBlock (take pa ca ++ take ka (drop ps cs)
                                      ++ drop (pa + ka) ca) true]> h))
                 r d ok q).
Proof.
  intros Hsa Hsb Hab.
  induction ka as [|ka IH]; intros fuel i ps pa ca h Hfuel Hka Hk Hps Hpa Hpb Hs Ha Hb.
  - rewrite !Nat.add_0_r, take_0, app_nil_l, take_drop, (list_insert_id h ba) by done.
    apply split_loop_second; (done || lia).
  - destruct fuel as [|fuel]; [lia|]. cbn [split_loop].
    replace (i + 1 <? len) with true by (symmetry; apply Z.ltb_lt; lia).
    replace (i + 1 <? len ÷ 2) with true by (symmetry; apply Z.ltb_lt; lia).
    destruct (lookup_lt_is_Some_2 cs ps ltac:(lia)) as [s Hcs].
    destruct (lookup_lt_is_Some_2 ca pa ltac:(lia)) as [s' Hca].
    unfold bind at 1. rewrite (load_at bs cs h r d ok q Hs ps s) by done.
    unfold bind at 1. rewrite (store_at ba ca h r d ok q Ha pa s') by done.
    cbn [ptr_add]. rewrite <- !(Nat2Z.inj_add _ 1), !Nat.add_1_r.
    rewrite (IH fuel (i + 1) (S ps) (S pa) (<[pa := s]> ca));
      [|lia|lia|lia|lia|rewrite length_insert; lia|lia
       |by rewrite list_lookup_insert_ne
       |apply list_lookup_insert_eq; eapply lookup_lt_Some; eauto
       |by rewrite list_lookup_insert_ne].
    rewrite list_insert_insert_eq.
    rewrite (copy_step_list cs ca ps pa ka s) by (done || lia).
    by replace (S ps + ka)%nat with (ps + S ka)%nat by lia.
Qed.

Lemma quot_double k : 0 <= k -> (2 * k) ÷ 2 = k.
Proof. intros Hk. rewrite Z.mul_comm. by apply Z.quot_mul. Qed.

(** A request on an even length, both allocations served. *)
Lemma split_served bs pre sl post h r d ok q (k : nat) :
  length sl = (2 * k)%nat -> Z.of_nat (2 * k) <= INT_MAX ->
  h !! bs = Some (mkBlock (pre ++ sl ++ post) true) ->
  ok q = true -> ok (S q) = true ->
  split_into_groups (Ptr bs (Z.of_nat (length pre))) (Z.of_nat (2 * k)) (mkWorld h r d ok q)
  = Done (Ptr (length h) 0, Ptr (S (length h)) 0)
         (mkWorld (h ++ [mkBlock (take k sl) true; mkBlock (drop k sl) true]) r d ok (S (S q))).
Proof.
  intros Hlen Hmax Hs Hok1 Hok2. unfold split_into_groups.
  assert (Hq : Z.of_nat (2 * k) ÷ 2 = Z.of_nat k)
    by (rewrite Nat2Z.inj_mul; apply quot_double; lia).
  rewrite Hq.
  assert (Hk : 0 <= Z.of_nat k < 2 ^ 59) by (unfold INT_MAX in Hmax; lia).
  unfold bind at 1. rewrite malloc_served by done.
  unfold bind at 1. rewrite malloc_served by done.
  cbn [is_null orb]. rewrite length_app, <- app_assoc; cbn [length app].
  replace (length h + 1)%nat with (S (length h)) by lia. rewrite !Nat2Z.id.
  assert (Hblt : (bs < length h)%nat) by (eapply lookup_lt_Some; eauto).
  unfold bind at 1.
  rewrite (split_loop_first bs (length h) (S (length h)) (pre ++ sl ++ post)
             (replicate k fresh_slot) ok (S (S q)) r d (Z.of_nat (2 * k)) k 0%nat
             ltac:(lia) ltac:(lia) ltac:(lia) k _ (-1) (length pre) 0%nat (replicate k fresh_slot));
    [|lia|lia|lia|rewrite !length_app; lia|rewrite length_replicate; lia
     |rewrite length_replicate; lia|by apply lookup_last2_old
     |apply lookup_last2_l|apply lookup_last2_r].
  rewrite insert_last2_l, insert_last2_r. unfold ret.
  rewrite !take_0, !app_nil_l, !Nat.add_0_l.
  rewrite (drop_ge (replicate k fresh_slot)) by (by rewrite length_replicate).
  rewrite !app_nil_r.
  rewrite <- drop_drop, !drop_app_length.
  rewrite (take_app_le sl post) by lia.
  rewrite drop_app_le by lia.
  rewrite (take_app_length' (drop k sl)) by (rewrite length_drop; lia).
  done.
Qed.

Lemma read_slots_whole w b cs :
  heap w !! b = Some (mkBlock cs true) ->
  read_slots w (Ptr b 0) (Z.of_nat (length cs)) = Some cs.
Proof.
  intros Hb. apply (read_slots_middle w b [] cs []). by rewrite app_nil_r.
Qed.

Lemma read_slots_extend w w' p n sl :
  (forall b blk, heap w !! b = Some blk -> heap w' !! b = Some blk) ->
  read_slots w p n = Some sl -> read_slots w' p n = Some sl.
Proof.
  intros Hext. destruct p as [|b o]; [done|]. unfold read_slots.
  destruct (heap w !! b) as [blk|] eqn:Hb; [|done]. by rewrite (Hext b blk Hb).
Qed.

Lemma store_frame b o v w w' :
  store (Ptr b o) v w = Done tt w' ->
  forall b' o' n, b' <> b -> read_slots w' (Ptr b' o') n = read_slots w (Ptr b' o') n.
Proof.
  unfold store, update. destruct (lookup_cell w (Ptr b o)) as [[[blk i] s]|]; [|done].
  intros [= <-] b' o' n Hne. unfold read_slots, set_heap; cbn [heap].
  by rewrite list_lookup_insert_ne.
Qed.

(** A request on an even length, both allocations served: the groups
    are the last two blocks of the memory. *)
Lemma split_result w lst (k : Z) sl :
  read_slots w lst (2 * k) = Some sl -> 2 * k <= INT_MAX ->
  alloc_ok w (requested w) = true -> alloc_ok w (S (requested w)) = true ->
  exists w',
    split_into_groups lst (2 * k) w
    = Done (Ptr (length (heap w)) 0, Ptr (S (length (heap w))) 0) w'
    /\ heap w' = heap w ++ [mkBlock (take (Z.to_nat k) sl) true;
                            mkBlock (drop (Z.to_nat k) sl) true]
    /\ length sl = (2 * Z.to_nat k)%nat /\ 0 <= k
    /\ exists bs o, lst = Ptr bs o /\ (bs < length (heap w))%nat.
Proof.
  intros Hread Hmax Hok1 Hok2. destruct lst as [|bs o]; [done|].
  destruct (read_slots_inv _ _ _ _ _ Hread) as (pre & post & Hb & -> & Hlen).
  assert (Hk : 0 <= k) by lia.
  assert (Hsl : length sl = (2 * Z.to_nat k)%nat) by lia.
  destruct w as [h r d ok q]; cbn [heap alloc_ok requested] in *.
  replace (2 * k) with (Z.of_nat (2 * Z.to_nat k)) in * by lia.
  rewrite (split_served bs pre sl post h r d ok q (Z.to_nat k)) by done.
  eexists. split; [done|]. split; [done|]. split; [done|]. split; [done|].
  exists bs, (Z.of_nat (length pre)). split; [done|]. eapply lookup_lt_Some; eauto.
Qed.

(** A request on an even length, an allocation refused. *)
Lemma split_refused lst len h r d ok q :
  0 <= len ÷ 2 < 2 ^ 59 -> ok q = false \/ ok (S q) = false ->
  exists ga gb new,
    split_into_groups lst len (mkWorld h r d ok q)
    = Done (ga, gb) (mkWorld (h ++ new) r d ok (S (S q)))
    /\ (ga = NULL \/ gb = NULL).
Proof.
  intros Hk Hok. unfold split_into_groups.
  destruct (ok q) eqn:Hok1.
  - destruct Hok as [|Hok2]; [done|].
    unfold bind at 1. rewrite malloc_served by done.
    unfold bind at 1. rewrite malloc_refused by done. cbn [is_null orb]. unfold ret.
    eexists _, _, _. split; [done|]. by right.
  - unfold bind at 1. rewrite malloc_refused by done.
    unfold bind at 1. cbn [is_null orb]. destruct (ok (S q)) eqn:Hok2.
    + rewrite malloc_served by done. unfold ret. eexists _, _, _. split; [done|]. by left.
    + rewrite malloc_refused by done. unfold ret. exists NULL, NULL, [].
      rewrite app_nil_r. split; [done|]. by left.
Qed.

Lemma split_groups_read w lst (k : Z) sl :
  read_slots w lst (2 * k) = Some sl -> 2 * k <= INT_MAX ->
  alloc_ok w (requested w) = true -> alloc_ok w (S (requested w)) = true ->
  exists w',
    split_into_groups lst (2 * k) w
    = Done (Ptr (length (heap w)) 0, Ptr (S (length (heap w))) 0) w'
    /\ heap w' = heap w ++ [mkBlock (take (Z.to_nat k) sl) true;
                            mkBlock (drop (Z.to_nat k) sl) true]
    /\ read_slots w' (Ptr (length (heap w)) 0) k = Some (take (Z.to_nat k) sl)
    /\ read_slots w' (Ptr (S (length (heap w))) 0) k = Some (drop (Z.to_nat k) sl)
    /\ length sl = (2 * Z.to_nat k)%nat
    /\ exists bs o, lst = Ptr bs o /\ (bs < length (heap w))%nat.
Proof.
  intros Hread Hmax Hok1 Hok2.
  destruct (split_result w lst k sl Hread Hmax Hok1 Hok2)
    as (w' & Hrun & Hheap & Hlen & Hk & Hlst).
  assert (Hla : length (take (Z.to_nat k) sl) = Z.to_nat k) by (rewrite length_take; lia).
  assert (Hlb : length (drop (Z.to_nat k) sl) = Z.to_nat k) by (rewrite length_drop; lia).
  exists w'. split; [exact Hrun|]. split; [exact Hheap|].
  split; [|split; [|split; [exact Hlen|exact Hlst]]].
  - replace k with (Z.of_nat (length (take (Z.to_nat k) sl))) at 1 by lia.
    apply read_slots_whole. rewrite Hheap. apply lookup_last2_l.
  - replace k with (Z.of_nat (length (drop (Z.to_nat k) sl))) at 1 by lia.
    apply read_slots_whole. rewrite Hheap. apply lookup_last2_r.
Qed.

(** C3. For every sequence of even length [2 * k] in memory (both
    allocations being served), [split_into_groups] returns two arrays
    of [k] objects: the first holds the objects of indices [[0, k)] in
    their order, the second those of indices [[k, 2 * k)] in their
    order, so the first followed by the second is the input sequence. *)
Theorem split_halves w lst (k : Z) sl :
  read_slots w lst (2 * k) = Some sl -> 2 * k <= INT_MAX ->
  alloc_ok w (requested w) = true -> alloc_ok w (S (requested w)) = true ->
  exists group_a group_b w' a b,
    split_into_groups lst (2 * k) w = Done (group_a, group_b) w'
    /\ read_slots w' group_a k = Some a
    /\ read_slots w' group_b k = Some b
    /\ a = take (Z.to_nat k) sl
    /\ b = drop (Z.to_nat k) sl
    /\ a ++ b = sl
    /\ length a = Z.to_nat k /\ length b = Z.to_nat k.
Proof.
  intros Hread Hmax Hok1 Hok2.
  destruct (split_groups_read w lst k sl Hread Hmax Hok1 Hok2)
    as (w' & Hrun & _ & Ha & Hb & Hlen & _).
  eexists _, _, w', _, _. split; [exact Hrun|].
  split; [exact Ha|]. split; [exact Hb|]. split; [done|]. split; [done|].
  split; [apply take_drop|]. rewrite length_take, length_drop. lia.
Qed.

(** C7. For every sequence of even length in memory, whatever the
    allocator does, [split_into_groups] returns and leaves every object
    that existed before the call as it was, the input sequence among
    them. The two pointers it leaves are both non-null exactly when
    both allocations were served. In that case the groups are two new
    blocks, distinct from each other and from every block that existed
    (the block of the input among them), that hold copies of the two
    halves: a later assignment through a pointer into one of the three
    leaves the other two as they are. *)
Theorem split_copies w lst (k : Z) sl :
  read_slots w lst (2 * k) = Some sl -> 2 * k <= INT_MAX ->
  exists group_a group_b w',
    split_into_groups lst (2 * k) w = Done (group_a, group_b) w'
    /\ (forall b blk, heap w !! b = Some blk -> heap w' !! b = Some blk)
    /\ read_slots w' lst (2 * k) = Some sl
    /\ (is_null group_a = false /\ is_null group_b = false <->
        alloc_ok w (requested w) = true /\ alloc_ok w (S (requested w)) = true)
    /\ (alloc_ok w (requested w) = true -> alloc_ok w (S (requested w)) = true ->
        exists ba bb,
          group_a = Ptr ba 0 /\ group_b = Ptr bb 0
          /\ ba <> bb /\ (length (heap w) <= ba)%nat /\ (length (heap w) <= bb)%nat
          /\ read_slots w' group_a k = Some (take (Z.to_nat k) sl)
          /\ read_slots w' group_b k = Some (drop (Z.to_nat k) sl)
          /\ forall i v w'',
               (store (group_a +ₚ i) v w' = Done tt w'' ->
                  read_slots w'' group_b k = Some (drop (Z.to_nat k) sl)
                  /\ read_slots w'' lst (2 * k) = Some sl)
               /\ (store (group_b +ₚ i) v w' = Done tt w'' ->
                     read_slots w'' group_a k = Some (take (Z.to_nat k) sl)
                     /\ read_slots w'' lst (2 * k) = Some sl)
               /\ (store (lst +ₚ i) v w' = Done tt w'' ->
                     read_slots w'' group_a k = Some (take (Z.to_nat k) sl)
                     /\ read_slots w'' group_b k = Some (drop (Z.to_nat k) sl))).
Proof.
  intros Hread Hmax.
  destruct (alloc_ok w (requested w) && alloc_ok w (S (requested w))) eqn:Hok.
  - apply andb_true_iff in Hok as [Hok1 Hok2].
    destruct (split_groups_read w lst k sl Hread Hmax Hok1 Hok2)
      as (w' & Hrun & Hheap & Ha & Hb & _ & bs & o & -> & Hbs).
    assert (Hext : forall b blk, heap w !! b = Some blk -> heap w' !! b = Some blk).
    { intros b blk Hblk. rewrite Hheap. by apply lookup_app_l_Some. }
    assert (Hlst : read_slots w' (Ptr bs o) (2 * k) = Some sl)
      by (by eapply read_slots_extend).
    eexists _, _, w'. split; [exact Hrun|]. split; [exact Hext|]. split; [exact Hlst|].
    split; [done|]. intros _ _.
    exists (length (heap w)), (S (length (heap w))).
    split; [done|]. split; [done|]. split; [lia|]. split; [lia|]. split; [lia|].
    split; [done|]. split; [done|].
    intros i v w''. cbn [ptr_add]. split; [|split]; intros Hst;
      rewrite !(store_frame _ _ _ _ _ Hst) by lia; done.
  - apply andb_false_iff in Hok.
    assert (Hk : 0 <= (2 * k) ÷ 2 < 2 ^ 59).
    { destruct lst as [|bs o]; [done|].
      destruct (read_slots_inv _ _ _ _ _ Hread) as (_ & _ & _ & _ & Hlen).
      rewrite quot_double by lia. unfold INT_MAX in Hmax. lia. }
    destruct w as [h r d ok q]; cbn [heap alloc_ok requested] in *.
    destruct (split_refused lst (2 * k) h r d ok q Hk Hok) as (ga & gb & new & Hrun & Hnull).
    assert (Hext : forall b blk, h !! b = Some blk -> (h ++ new) !! b = Some blk)
      by (intros b blk Hblk; by apply lookup_app_l_Some).
    eexists _, _, _. split; [exact Hrun|]. split; [exact Hext|].
    split; [exact (read_slots_extend (mkWorld h r d ok q) (mkWorld (h ++ new) r d ok (S (S q)))
                     lst (2 * k) sl Hext Hread)|].
    split.
    + split.
      * intros [Hga Hgb]. by destruct Hnull as [-> | ->].
      * intros [Hok1 Hok2]. destruct Hok; congruence.
    + intros Hok1 Hok2. destruct Hok; congruence.
Qed.

(** * Failures *)

(** Every failure of [create_distinct_random_list] hands [NULL] to the
    caller, also when one of the two allocations was served. *)
Lemma create_failure_returns_NULL len names w :
  RANGE < len \/ alloc_ok w (requested w) = false \/ alloc_ok w (S (requested w)) = false ->
  exists w', create_distinct_random_list len names w = Done NULL w'.
Proof.
  intros Hfail. unfold create_distinct_random_list.
  destruct (len >? RANGE) eqn:Hgt; [by eexists|].
  destruct Hfail as [Hlt|Hfail]; [rewrite Z.gtb_ltb in Hgt; apply Z.ltb_ge in Hgt; lia|].
  unfold bind at 1. unfold malloc at 1.
  destruct ((array_bytes RANGE <=? PTRDIFF_MAX) && alloc_ok w (requested w)) eqn:H1.
  - unfold bind at 1. unfold malloc at 1. cbn [set_heap heap rng drawn alloc_ok requested].
    destruct ((array_bytes len <=? PTRDIFF_MAX) && alloc_ok w (S (requested w))) eqn:H2.
    + apply andb_true_iff in H1 as [_ H1], H2 as [_ H2]. destruct Hfail; congruence.
    + by eexists.
  - unfold bind at 1. unfold malloc at 1. cbn [set_heap heap rng drawn alloc_ok requested].
    destruct ((array_bytes len <=? PTRDIFF_MAX) && alloc_ok w (S (requested w)));
      eexists; reflexivity.
Qed.

(** C6, at the input where the code departs from it: a list of two
    entries is split when the allocator serves the first request and
    refuses the second. The call returns with the first out-parameter
    pointing to a new block of one indeterminate object and the second
    holding [NULL]: half of the result is built and visible to the
    caller, and nothing else tells the failure. *)
Theorem split_leaves_half_built_result :
  exists w',
    split_into_groups (Ptr 0 0) 2 (world_of_array two_entries [] [true; false])
    = Done (Ptr 1 0, NULL) w'
    /\ heap w' !! 1%nat = Some (mkBlock [fresh_slot] true)
    /\ read_slots w' (Ptr 1 0) 1 = Some [fresh_slot]
    /\ read_array w' (Ptr 1 0) 1 = None.
Proof. eexists. split; [reflexivity|]. repeat split. Qed.

(** The same for every even length: with the first request served and
    the second refused, the first group is allocated and left
    indeterminate. *)
Lemma split_second_refused lst (k : Z) h r d ok q :
  0 <= k < 2 ^ 59 -> ok q = true -> ok (S q) = false ->
  split_into_groups lst (2 * k) (mkWorld h r d ok q)
  = Done (Ptr (length h) 0, NULL)
         (mkWorld (h ++ [mkBlock (replicate (Z.to_nat k) fresh_slot) true]) r d ok (S (S q))).
Proof.
  intros Hk Hok1 Hok2. unfold split_into_groups. rewrite quot_double by lia.
  unfold bind at 1. rewrite malloc_served by done.
  unfold bind at 1. by rewrite malloc_refused by done.
Qed.

(** * The claims at concrete inputs *)

Lemma sample_distinct_entries_witness :
  exists res w' l,
    create_distinct_random_list 4 the_names (world0 [3; 1; 2; 0; 1]%N []) = Done res w'
    /\ read_array w' res 4 = Some l
    /\ Z.of_nat (length l) = 4
    /\ NoDup (id <$> l)
    /\ forall e, e ∈ l ->
         0 <= id e < RANGE /\ the_names !! Z.to_nat (id e) = Some (pseudo e).
Proof.
  apply (sample_distinct_entries the_names 4 (world0 [3; 1; 2; 0; 1]%N []));
    [vm_compute; lia|lia|reflexivity|reflexivity].
Defined.

(** C1 as stated fails on a pool of seven labels with [count = 7 <=
    pool.length]: the request is refused, no list is returned. *)
Lemma sample_distinct_refuses_pool_of_seven :
  length (the_names ++ ["extra"%string]) = 7%nat
  /\ ~ exists res w' l,
         create_distinct_random_list 7 (the_names ++ ["extra"%string]) (world0 [] [])
         = Done res w'
         /\ read_array w' res 7 = Some l
         /\ Z.of_nat (length l) = 7.
Proof.
  split; [reflexivity|]. intros (res & w' & l & Hrun & Hread & _).
  vm_compute in Hrun. injection Hrun as <- <-. discriminate Hread.
Qed.

Lemma sample_refuses_above_RANGE_witness :
  create_distinct_random_list 7 the_names (world0 [] []) = Done NULL (world0 [] []).
Proof. apply (sample_refuses_above_RANGE the_names 7 (world0 [] [])). reflexivity. Defined.

(** C4 as stated fails on a pool of four labels with [count = 5 >
    pool.length]: the request passes the check (5 <= RANGE), the two
    allocations are made and the pool is read beyond its end; the call
    does not return [NULL]. *)
Lemma sample_does_not_refuse_five_of_four :
  length (take 4 the_names) = 4%nat
  /\ create_distinct_random_list 5 (take 4 the_names) (world0 [] []) = Undefined
  /\ ~ exists w', create_distinct_random_list 5 (take 4 the_names) (world0 [] [])
                  = Done NULL w'.
Proof.
  split; [reflexivity|]. split; [reflexivity|]. intros [w' Hrun]. discriminate Hrun.
Qed.



Lemma shuffle_permutation_witness :
  exists w' sl',
    shuffle (Ptr 0 0) 3 (world_of_array three_entries [4; 7]%N []) = Done tt w'
    /\ read_slots w' (Ptr 0 0) 3 = Some sl'
    /\ sl' ≡ₚ three_entries
    /\ drawn w' = 2%nat.
Proof.
  apply (shuffle_permutation (world_of_array three_entries [4; 7]%N []) (Ptr 0 0) 3 three_entries).
  reflexivity.
Defined.

Lemma shuffle_unbiased_witness :
  exists ds,
    ds ∈ all_draws 2
    /\ (forall r,
          draws_of r 0 2 = ds <->
          exists w', shuffle (Ptr 0 0) 3 (with_draws r (world_of_array three_entries [] []))
                     = Done tt w'
                     /\ read_slots w' (Ptr 0 0) 3 = Some (reverse three_entries))
    /\ draws_of (stream_of ds) 0 2 = ds
    /\ length (all_draws 2) = fact 3
    /\ forall ds', ds' ∈ all_draws 2 <-> length ds' = 2%nat /\ valid_draws ds' = true.
Proof.
  apply (shuffle_unbiased (world_of_array three_entries [] []) (Ptr 0 0) 3
           three_entries (reverse three_entries)).
  - reflexivity.
  - unfold three_entries. apply (NoDup_fmap_2_strong slot_of).
    + intros [p1 i1] [p2 i2] _ _ [= -> ->]. done.
    + apply NoDup_ListNoDup. repeat constructor; cbn; intuition discriminate.
  - apply reverse_Permutation.
Defined.

Lemma split_halves_witness :
  exists group_a group_b w' a b,
    split_into_groups (Ptr 0 0) (2 * 2) (world_of_array four_entries [] []) = Done (group_a, group_b) w'
    /\ read_slots w' group_a 2 = Some a
    /\ read_slots w' group_b 2 = Some b
    /\ a = take 2 four_entries
    /\ b = drop 2 four_entries
    /\ a ++ b = four_entries
    /\ length a = 2%nat /\ length b = 2%nat.
Proof.
  apply (split_halves (world_of_array four_entries [] []) (Ptr 0 0) 2 four_entries);
    [reflexivity|vm_compute; discriminate|reflexivity|reflexivity].
Defined.

Lemma split_copies_witness :
  exists group_a group_b w' ba bb,
    split_into_groups (Ptr 0 0) (2 * 2) (world_of_array four_entries [] []) = Done (group_a, group_b) w'
    /\ (forall b blk, heap (world_of_array four_entries [] []) !! b = Some blk ->
                      heap w' !! b = Some blk)
    /\ read_slots w' (Ptr 0 0) (2 * 2) = Some four_entries
    /\ is_null group_a = false /\ is_null group_b = false
    /\ group_a = Ptr ba 0 /\ group_b = Ptr bb 0
    /\ ba <> bb /\ (1 <= ba)%nat /\ (1 <= bb)%nat
    /\ read_slots w' group_a 2 = Some (take 2 four_entries)
    /\ read_slots w' group_b 2 = Some (drop 2 four_entries)
    /\ forall i v w'',
         (store (group_a +ₚ i) v w' = Done tt w'' ->
            read_slots w'' group_b 2 = Some (drop 2 four_entries)
            /\ read_slots w'' (Ptr 0 0) (2 * 2) = Some four_entries)
         /\ (store (group_b +ₚ i) v w' = Done tt w'' ->
               read_slots w'' group_a 2 = Some (take 2 four_entries)
               /\ read_slots w'' (Ptr 0 0) (2 * 2) = Some four_entries)
         /\ (store (Ptr 0 0 +ₚ i) v w' = Done tt w'' ->
               read_slots w'' group_a 2 = Some (take 2 four_entries)
               /\ read_slots w'' group_b 2 = Some (drop 2 four_entries)).
Proof.
  destruct (split_copies (world_of_array four_entries [] []) (Ptr 0 0) 2 four_entries
              eq_refl ltac:(vm_compute; discriminate))
    as (group_a & group_b & w' & Hrun & Hframe & Hlst & Hnull & Hserved).
  destruct (Hserved eq_refl eq_refl)
    as (ba & bb & Ha & Hb & Hne & Hfa & Hfb & Hra & Hrb & Hstore).
  destruct (proj2 Hnull (conj eq_refl eq_refl)) as [Hna Hnb].
  exists group_a, group_b, w', ba, bb.
  repeat (split; [assumption|]). exact Hstore.
Defined.

Lemma create_checks_RANGE_only_witness :
  ((6 <= length the_names)%nat ->
   exists res w' shuffled,
     create_distinct_random_list 3 the_names (world0 [3; 1; 2; 0; 1]%N []) = Done res w'
     /\ is_null res = false
     /\ heap w' !! 0%nat = Some (mkBlock (slot_of <$> shuffled) false)
     /\ shuffled ≡ₚ universe the_names
     /\ length shuffled = 6%nat
     /\ id <$> universe the_names = [0; 1; 2; 3; 4; 5]
     /\ pseudo <$> universe the_names = take 6 the_names)
  /\ ((length the_names < 6)%nat ->
      create_distinct_random_list 3 the_names (world0 [3; 1; 2; 0; 1]%N []) = Undefined).
Proof.
  apply (create_checks_RANGE_only the_names 3 (world0 [3; 1; 2; 0; 1]%N []));
    [lia|reflexivity|reflexivity].
Defined.

(** * The reference run *)

(** The pool of the program, [count = 6], and one stream of draws: the
    result is an arrangement of the six labels, and splitting it gives
    its first three and its last three entries. *)
Example reference_sample :
  run_sample 6 the_names (world0 [3; 1; 2; 0; 1]%N [])
  = Some (Some [mkManage "vjan-nie" 5; mkManage "rocgarci" 4; mkManage "dlesieur" 0;
                mkManage "jpantoja" 2; mkManage "anvilla" 1; mkManage "marimuno" 3]).
Proof. reflexivity. Qed.

Example reference_split :
  match create_distinct_random_list 6 the_names (world0 [3; 1; 2; 0; 1]%N []) with
  | Done random_list w =>
      match split_into_groups random_list 6 w with
      | Done (group_a, group_b) w' =>
          read_array w' group_a 3
          = Some [mkManage "vjan-nie" 5; mkManage "rocgarci" 4; mkManage "dlesieur" 0]
          /\ read_array w' group_b 3
             = Some [mkManage "jpantoja" 2; mkManage "anvilla" 1; mkManage "marimuno" 3]
      | _ => False
      end
  | _ => False
  end.
Proof. vm_compute. split; reflexivity. Qed.

(** On an odd length the last copy falls outside the second group. *)
Example split_odd_length_undefined :
  split_into_groups (Ptr 0 0) 3 (world_of_array three_entries [] []) = Undefined.
Proof. vm_compute. reflexivity. Qed.

(** A negative [len] passes the check of [create_distinct_random_list];
    the size of the second request wraps to more than [PTRDIFF_MAX]
    bytes, the request is refused and the call returns [NULL]. *)
Example create_negative_length :
  exists w', create_distinct_random_list (-1) the_names (world0 [] []) = Done NULL w'.
Proof. eexists. vm_compute. reflexivity. Qed.

(** * Further properties of the program *)

(** ** Reads and writes through pointers *)

Lemma load_inv p w s w' :
  load p w = Done s w' ->
  w' = w /\ exists b o cs,
    p = Ptr b o /\ 0 <= o /\ heap w !! b = Some (mkBlock cs true)
    /\ cs !! Z.to_nat o = Some s.
Proof.
  unfold load, lookup_cell. destruct p as [|b o]; [done|].
  destruct (heap w !! b) as [[cs lv]|] eqn:Hb; [|done]. cbn [live cells].
  destruct lv; [|done]. destruct (0 <=? o) eqn:Ho; [|done]. cbn [andb].
  destruct (cs !! Z.to_nat o) as [s0|] eqn:Hs; [|done].
  intros [= <- <-]. split; [done|]. apply Z.leb_le in Ho. eauto 10.
Qed.

Lemma load_ok b o cs w s :
  0 <= o -> heap w !! b = Some (mkBlock cs true) -> cs !! Z.to_nat o = Some s ->
  load (Ptr b o) w = Done s w.
Proof.
  intros Ho Hb Hs. unfold load, lookup_cell. rewrite Hb. cbn [live cells].
  replace (0 <=? o) with true by (symmetry; apply Z.leb_le; lia).
  cbn [andb]. by rewrite Hs.
Qed.

Lemma store_ok b o cs w v s :
  0 <= o -> heap w !! b = Some (mkBlock cs true) -> cs !! Z.to_nat o = Some s ->
  store (Ptr b o) v w
  = Done tt (set_heap (<[b := mkBlock (<[Z.to_nat o := v]> cs) true]> (heap w)) w).
Proof.
  intros Ho Hb Hs. unfold store, update, lookup_cell. rewrite Hb. cbn [live cells].
  replace (0 <=? o) with true by (symmetry; apply Z.leb_le; lia).
  cbn [andb]. by rewrite Hs.
Qed.

(** A store changes the place it writes and no other. *)
Lemma store_spec p w v s :
  load p w = Done s w ->
  exists w',
    store p v w = Done tt w'
    /\ load p w' = Done v w'
    /\ (forall r s0, r <> p -> load r w = Done s0 w -> load r w' = Done s0 w')
    /\ length (heap w') = length (heap w)
    /\ rng w' = rng w /\ drawn w' = drawn w
    /\ alloc_ok w' = alloc_ok w /\ requested w' = requested w.
Proof.
  intros (_ & b & o & cs & -> & Ho & Hb & Hs)%load_inv.
  assert (Hblt : (b < length (heap w))%nat) by (eapply lookup_lt_Some; eauto).
  assert (Hilt : (Z.to_nat o < length cs)%nat) by (eapply lookup_lt_Some; eauto).
  eexists. split; [by eapply store_ok|].
  split; [|split; [|cbn [set_heap heap rng drawn alloc_ok requested];
                    by rewrite length_insert]].
  - apply (load_ok b o (<[Z.to_nat o := v]> cs)); [done| |].
    + cbn [set_heap heap]. by apply list_lookup_insert_eq.
    + by apply list_lookup_insert_eq.
  - intros r s0 Hne (_ & b' & o' & cs' & -> & Ho' & Hb' & Hs')%load_inv.
    destruct (decide (b' = b)) as [->|Hbne].
    + rewrite Hb in Hb'. injection Hb' as <-.
      apply (load_ok b o' (<[Z.to_nat o := v]> cs)); [done| |].
      * cbn [set_heap heap]. by apply list_lookup_insert_eq.
      * rewrite list_lookup_insert_ne; [done|]. intros Heq. apply Hne. f_equal. lia.
    + apply (load_ok b' o' cs'); [done| |done].
      cbn [set_heap heap]. by rewrite list_lookup_insert_ne.
Qed.

Lemma ft_swap_spec ptr ptr2 w x y :
  load ptr w = Done x w -> load ptr2 w = Done y w ->
  exists w',
    ft_swap ptr ptr2 w = Done tt w'
    /\ load ptr w' = Done y w'
    /\ load ptr2 w' = Done x w'
    /\ (forall r s, r <> ptr -> r <> ptr2 -> load r w = Done s w -> load r w' = Done s w')
    /\ drawn w' = drawn w /\ requested w' = requested w.
Proof.
  intros Hx Hy. unfold ft_swap, bind. rewrite Hx, Hy.
  destruct (store_spec ptr w y x Hx) as (w1 & -> & Hp1 & Hother1 & _ & _ & Hd1 & _ & Hq1).
  assert (Hq : load ptr2 w1 = Done y w1).
  { destruct (decide (ptr2 = ptr)) as [->|Hne]; [done|]. by apply Hother1. }
  destruct (store_spec ptr2 w1 x y Hq) as (w2 & -> & Hp2 & Hother2 & _ & _ & Hd2 & _ & Hq2).
  exists w2. split; [done|]. split; [|split; [done|split]].
  - destruct (decide (ptr = ptr2)) as [->|Hne].
    + rewrite Hx in Hy. by injection Hy as ->.
    + by apply Hother2.
  - intros r s Hr1 Hr2 Hs. apply Hother2; [done|]. by apply Hother1.
  - split; congruence.
Qed.

(** X1. [ft_swap] exchanges the two objects and touches nothing else,
    also when the two pointers are equal. *)
Theorem ft_swap_exchanges ptr ptr2 w x y :
  load ptr w = Done x w -> load ptr2 w = Done y w ->
  exists w',
    ft_swap ptr ptr2 w = Done tt w'
    /\ load ptr w' = Done y w'
    /\ load ptr2 w' = Done x w'
    /\ (forall r s, r <> ptr -> r <> ptr2 -> load r w = Done s w -> load r w' = Done s w')
    /\ drawn w' = drawn w /\ requested w' = requested w.
Proof. apply ft_swap_spec. Qed.

(** ** [shuffle] and the rest of the memory *)

Lemma load_undefined_heap p w1 w2 :
  heap w1 = heap w2 -> load p w1 = Undefined -> load p w2 = Undefined.
Proof.
  intros Hh. unfold load, lookup_cell. destruct p as [|b o]; [done|]. rewrite Hh.
  destruct (heap w2 !! b) as [blk|]; [|done].
  destruct (live blk && (0 <=? o)); [|done]. by destruct (cells blk !! Z.to_nat o).
Qed.

(** X3. [shuffle] works inside the [len] places it is given: every other
    block, every other place of the same block, the state of the
    allocator and the stream of [rand()] are left as they were. *)
Theorem shuffle_frame w b o len sl :
  read_slots w (Ptr b o) len = Some sl ->
  exists w',
    shuffle (Ptr b o) len w = Done tt w'
    /\ (forall b', b' <> b -> heap w' !! b' = heap w !! b')
    /\ (forall o' s, o' < o \/ o + len <= o' ->
          load (Ptr b o') w = Done s w -> load (Ptr b o') w' = Done s w')
    /\ length (heap w') = length (heap w)
    /\ rng w' = rng w /\ alloc_ok w' = alloc_ok w /\ requested w' = requested w.
Proof.
  intros Hread.
  destruct (read_slots_inv _ _ _ _ _ Hread) as (pre & post & Hb & -> & ->).
  destruct w as [h r d ok q]; cbn [heap rng drawn alloc_ok requested] in *.
  rewrite (shuffle_at b pre sl post) by done.
  set (sl' := shuffle_draws (draws_of r d (length sl - 1)) sl).
  assert (Hlen : length sl' = length sl) by apply shuffle_draws_length.
  assert (Hblt : (b < length h)%nat) by (eapply lookup_lt_Some; eauto).
  eexists. split; [done|]. cbn [heap rng drawn alloc_ok requested].
  split; [|split; [|by rewrite length_insert]].
  - intros b' Hne. by rewrite list_lookup_insert_ne.
  - intros o' s Hout (_ & b1 & o1 & cs & [= <- <-] & Ho1 & Hcs & Hs)%load_inv.
    cbn [heap] in Hcs. rewrite Hb in Hcs. injection Hcs as <-.
    apply (load_ok b o' (pre ++ sl' ++ post)); [done| |].
    + cbn [heap]. by apply list_lookup_insert_eq.
    + destruct Hout as [Hlt|Hge].
      * rewrite lookup_app_l in Hs |- * by lia. done.
      * rewrite lookup_app_r in Hs |- * by lia.
        rewrite lookup_app_r in Hs |- * by lia. by rewrite Hlen.
Qed.

(** X4. [shuffle] begins with the last of the [len] places: when
    [len >= 2] and that place cannot be read (the array is shorter than
    [len], or its block was freed), the call is undefined whatever the
    draws are. *)
Theorem shuffle_beyond_array b o len w :
  2 <= len -> load (Ptr b (o + (len - 1))) w = Undefined ->
  shuffle (Ptr b o) len w = Undefined.
Proof.
  intros Hlen Hload. unfold shuffle. cbn [ptr_add].
  destruct (Z.to_nat len) as [|fuel] eqn:Hfuel; [lia|]. cbn [shuffle_loop ptr_add].
  unfold bind at 1. unfold ptr_ge. rewrite Nat.eqb_refl. unfold ret at 1.
  replace (o + 1 <=? o + len + -1) with true by (symmetry; apply Z.leb_le; lia).
  unfold bind at 1. unfold rand.
  unfold bind at 1. unfold ptr_diff. rewrite Nat.eqb_refl. unfold ret at 1.
  unfold bind at 1. unfold ft_swap. unfold bind at 1.
  replace (o + len + -1) with (o + (len - 1)) by lia.
  match goal with |- context [load ?p ?w1] =>
    rewrite (load_undefined_heap p w w1 eq_refl Hload) end.
  done.
Qed.

(** ** [create_distinct_random_list]: resources and results *)



(** X6. On an accepted request that succeeds, exactly five results of
    [rand()] are consumed whatever [len] is, two allocations are made,
    the memory that existed is kept, the universe is freed and the one
    new live block is the result, of exactly [len] objects. *)
Theorem create_accounting len names w :
  0 <= len <= RANGE -> (6 <= length names)%nat ->
  alloc_ok w (requested w) = true -> alloc_ok w (S (requested w)) = true ->
  exists w' universe_block result_block,
    create_distinct_random_list len names w = Done (Ptr (S (length (heap w))) 0) w'
    /\ heap w' = heap w ++ [universe_block; result_block]
    /\ live universe_block = false
    /\ live result_block = true
    /\ Z.of_nat (length (cells result_block)) = len
    /\ drawn w' = (drawn w + 5)%nat
    /\ requested w' = (requested w + 2)%nat
    /\ rng w' = rng w.
Proof.
  intros Hlen Hnames Hok1 Hok2.
  pose proof (create_served len names (heap w) (rng w) (drawn w) (alloc_ok w) (requested w)
                Hlen Hnames Hok1 Hok2) as Hrun.
  cbv zeta in Hrun. destruct w as [h r d ok q]; cbn [heap rng drawn alloc_ok requested] in *.
  eexists _, _, _. split; [exact Hrun|]. cbn [heap rng drawn alloc_ok requested live cells].
  split; [done|]. split; [done|]. split; [done|]. split.
  - cbn [cells].
    rewrite length_fmap, length_take, shuffle_draws_length, universe_length by done.
    change (Z.to_nat RANGE) with 6%nat. unfold RANGE in Hlen. lia.
  - split; [done|]. split; [lia|done].
Qed.

(** X7. The result for [len] entries is the beginning of the result for
    all 6, in the same world: [len] only says how much of the shuffled
    universe is copied. *)
Theorem create_prefix_of_full len names w :
  0 <= len <= RANGE -> (6 <= length names)%nat ->
  alloc_ok w (requested w) = true -> alloc_ok w (S (requested w)) = true ->
  exists res w1 full w6 l6,
    create_distinct_random_list len names w = Done res w1
    /\ create_distinct_random_list RANGE names w = Done full w6
    /\ read_array w6 full RANGE = Some l6
    /\ read_array w1 res len = Some (take (Z.to_nat len) l6).
Proof.
  intros Hlen Hnames Hok1 Hok2.
  destruct (create_result len names w Hlen Hnames Hok1 Hok2) as (w1 & Hrun1 & _ & Hread1 & Hperm).
  destruct (create_result RANGE names w ltac:(done) Hnames Hok1 Hok2)
    as (w6 & Hrun6 & _ & Hread6 & _).
  eexists _, w1, _, w6, _. split; [exact Hrun1|]. split; [exact Hrun6|].
  split; [exact Hread6|]. rewrite Hread1, take_take. do 2 f_equal.
  unfold RANGE in *. lia.
Qed.

(** X8. Asked for all 6 entries, the result is a rearrangement of the
    universe: every pair [(names[k], k)], [k = 0..5], occurs exactly
    once, so the labels returned are the first six labels of the pool
    in some order. *)
Theorem create_full_is_rearrangement names w :
  (6 <= length names)%nat ->
  alloc_ok w (requested w) = true -> alloc_ok w (S (requested w)) = true ->
  exists res w' l,
    create_distinct_random_list RANGE names w = Done res w'
    /\ read_array w' res RANGE = Some l
    /\ l ≡ₚ universe names
    /\ pseudo <$> l ≡ₚ take 6 names
    /\ id <$> l ≡ₚ [0; 1; 2; 3; 4; 5].
Proof.
  intros Hnames Hok1 Hok2.
  destruct (create_result RANGE names w ltac:(done) Hnames Hok1 Hok2)
    as (w' & Hrun & _ & Hread & Hperm).
  destruct (universe_labels names Hnames) as [Hids Hlabels].
  rewrite take_ge in Hread
    by (rewrite (Permutation_length Hperm), universe_length by done; done).
  eexists _, w', _. split; [exact Hrun|]. split; [exact Hread|]. split; [exact Hperm|].
  split; [by rewrite Hperm, Hlabels|by rewrite Hperm, Hids].
Qed.

(** X9. When exactly one of the two allocations is served the call
    returns [NULL] before anything is drawn, and the buffer that was
    obtained is not freed: the memory has one more live block, which
    nothing points to any more. *)
Theorem create_refusal_keeps_buffer len names w :
  0 <= len <= RANGE ->
  alloc_ok w (requested w) = negb (alloc_ok w (S (requested w))) ->
  exists w' blk,
    create_distinct_random_list len names w = Done NULL w'
    /\ heap w' = heap w ++ [blk]
    /\ live blk = true
    /\ drawn w' = drawn w.
Proof.
  intros Hlen Hok. destruct w as [h r d ok q]; cbn [heap rng drawn alloc_ok requested] in *.
  unfold create_distinct_random_list.
  replace (len >? RANGE) with false by (rewrite Z.gtb_ltb; symmetry; apply Z.ltb_ge; lia).
  destruct (ok (S q)) eqn:Hok2; cbn [negb] in Hok.
  - unfold bind at 1. rewrite malloc_refused by done.
    unfold bind at 1. rewrite malloc_served by (done || (unfold RANGE in *; lia)).
    cbn [is_null orb]. unfold ret. by eexists _, _.
  - unfold bind at 1. rewrite malloc_served by (done || (unfold RANGE; lia)).
    unfold bind at 1. rewrite malloc_refused by done.
    cbn [is_null orb]. unfold ret. by eexists _, _.
Qed.


(** ** [split_into_groups] outside its assumption *)

(** The second group has room for [k] more objects and [S k] are still
    to be copied into it. *)
Lemma split_loop_second_overflow bs bb cs ok q r d len ptr_a :
  bs <> bb ->
  forall k fuel i ps pb cb h,
    (S k <= fuel)%nat -> Z.of_nat (S k) = len - (i + 1) -> len ÷ 2 <= i + 1 ->
    (ps + S k <= length cs)%nat -> (pb + k = length cb)%nat ->
    h !! bs = Some (mkBlock cs true) ->
    h !! bb = Some (mkBlock cb true) ->
    split_loop fuel (Ptr bs (Z.of_nat ps)) ptr_a (Ptr bb (Z.of_nat pb)) i len
               (mkWorld h r d ok q)
    = Undefined.
Proof.
  intros Hne. induction k as [|k IH]; intros fuel i ps pb cb h Hfuel Hk Hhalf Hps Hpb Hs Hd;
    (destruct fuel as [|fuel]; [lia|]); cbn [split_loop];
    replace (i + 1 <? len) with true by (symmetry; apply Z.ltb_lt; lia);
    replace (i + 1 <? len ÷ 2) with false by (symmetry; apply Z.ltb_ge; lia);
    destruct (lookup_lt_is_Some_2 cs ps ltac:(lia)) as [s Hcs];
    unfold bind at 1; rewrite (load_at bs cs h r d ok q Hs ps s) by done;
    unfold bind at 1.
  - unfold store, update, lookup_cell; cbn [heap]. rewrite Hd; cbn [live cells].
    replace (0 <=? Z.of_nat pb) with true by (symmetry; apply Z.leb_le; lia).
    cbn [andb]. by rewrite Nat2Z.id, lookup_ge_None_2 by lia.
  - destruct (lookup_lt_is_Some_2 cb pb ltac:(lia)) as [s' Hcb].
    rewrite (store_at bb cb h r d ok q Hd pb s') by done.
    cbn [ptr_add]. rewrite <- !(Nat2Z.inj_add _ 1), !Nat.add_1_r.
    apply (IH fuel (i + 1) (S ps) (S pb) (<[pb := s]> cb));
      [lia|lia|lia|lia|rewrite length_insert; lia
      |by rewrite list_lookup_insert_ne
      |apply list_lookup_insert_eq; eapply lookup_lt_Some; eauto].
Qed.

Lemma split_loop_first_overflow bs ba bb cs cb ok q r d len kb pb :
  bs <> ba -> bs <> bb -> ba <> bb ->
  (pb + kb = length cb)%nat ->
  forall ka fuel i ps pa ca h,
    (ka + S kb <= fuel)%nat ->
    Z.of_nat ka = len ÷ 2 - (i + 1) ->
    Z.of_nat (ka + S kb) = len - (i + 1) ->
    (ps + ka + S kb <= length cs)%nat -> (pa + ka <= length ca)%nat ->
    h !! bs = Some (mkBlock cs true) ->
    h !! ba = Some (mkBlock ca true) ->
    h !! bb = Some (mkBlock cb true) ->
    split_loop fuel (Ptr bs (Z.of_nat ps)) (Ptr ba (Z.of_nat pa)) (Ptr bb (Z.of_nat pb)) i len
               (mkWorld h r d ok q)
    = Undefined.
Proof.
  intros Hsa Hsb Hab Hpb.
  induction ka as [|ka IH]; intros fuel i ps pa ca h Hfuel Hka Hk Hps Hpa Hs Ha Hb.
  - apply (split_loop_second_overflow bs bb cs ok q r d len _ Hsb kb _ _ _ _ cb);
      (done || lia).
  - destruct fuel as [|fuel]; [lia|]. cbn [split_loop].
    replace (i + 1 <? len) with true by (symmetry; apply Z.ltb_lt; lia).
    replace (i + 1 <? len ÷ 2) with true by (symmetry; apply Z.ltb_lt; lia).
    destruct (lookup_lt_is_Some_2 cs ps ltac:(lia)) as [s Hcs].
    destruct (lookup_lt_is_Some_2 ca pa ltac:(lia)) as [s' Hca].
    unfold bind at 1. rewrite (load_at bs cs h r d ok q Hs ps s) by done.
    unfold bind at 1. rewrite (store_at ba ca h r d ok q Ha pa s') by done.
    cbn [ptr_add]. rewrite <- !(Nat2Z.inj_add _ 1), !Nat.add_1_r.
    apply (IH fuel (i + 1) (S ps) (S pa) (<[pa := s]> ca));
      [lia|lia|lia|lia|rewrite length_insert; lia
      |by rewrite list_lookup_insert_ne
      |apply list_lookup_insert_eq; eapply lookup_lt_Some; eauto
      |by rewrite list_lookup_insert_ne].
Qed.

Lemma quot_double_succ k : 0 <= k -> (2 * k + 1) ÷ 2 = k.
Proof.
  intros Hk. rewrite Z.quot_div_nonneg by lia.
  symmetry. apply (Z.div_unique _ _ _ 1); lia.
Qed.

(** X11. On a list of odd length [2 * k + 1], with both allocations
    served, each group gets room for [k] objects and the loop copies
    [k + 1] into the second: the last copy is written outside the
    block, which is undefined behaviour. *)
Theorem split_odd_length w lst (k : Z) sl :
  read_slots w lst (2 * k + 1) = Some sl -> 2 * k + 1 <= INT_MAX ->
  alloc_ok w (requested w) = true -> alloc_ok w (S (requested w)) = true ->
  split_into_groups lst (2 * k + 1) w = Undefined.
Proof.
  intros Hread Hmax Hok1 Hok2. destruct lst as [|bs o]; [done|].
  destruct (read_slots_inv _ _ _ _ _ Hread) as (pre & post & Hb & -> & Hlen).
  assert (Hk : 0 <= k < 2 ^ 59) by (unfold INT_MAX in Hmax; lia).
  destruct w as [h r d ok q]; cbn [heap alloc_ok requested] in *.
  unfold split_into_groups. rewrite quot_double_succ by lia.
  unfold bind at 1. rewrite malloc_served by done.
  unfold bind at 1. rewrite malloc_served by done.
  cbn [is_null orb]. rewrite length_app, <- app_assoc; cbn [length app].
  replace (length h + 1)%nat with (S (length h)) by lia.
  assert (Hblt : (bs < length h)%nat) by (eapply lookup_lt_Some; eauto).
  unfold bind at 1.
  rewrite (split_loop_first_overflow bs (length h) (S (length h)) (pre ++ sl ++ post)
             (replicate (Z.to_nat k) fresh_slot) ok (S (S q)) r d (2 * k + 1)
             (Z.to_nat k) 0%nat
             ltac:(lia) ltac:(lia) ltac:(lia) ltac:(rewrite length_replicate; lia)
             (Z.to_nat k) _ (-1) (length pre) 0%nat (replicate (Z.to_nat k) fresh_slot));
    [done|lia|rewrite quot_double_succ by lia; lia|lia|rewrite !length_app; lia
    |rewrite length_replicate; lia|by apply lookup_last2_old
    |apply lookup_last2_l|apply lookup_last2_r].
Qed.

(** X12. When an allocation is refused, [split_into_groups] returns
    without reading the list ([lst] may be any pointer) and without
    copying: one at least of the two pointers it leaves is [NULL], and
    the memory is as before, plus the block of the request that was
    served, if any, left indeterminate and not freed. *)
Theorem split_refusal_copies_nothing lst len w :
  0 <= len <= INT_MAX ->
  alloc_ok w (requested w) = false \/ alloc_ok w (S (requested w)) = false ->
  exists group_a group_b w',
    split_into_groups lst len w = Done (group_a, group_b) w'
    /\ (group_a = NULL \/ group_b = NULL)
    /\ (heap w' = heap w
        \/ heap w' = heap w ++ [mkBlock (replicate (Z.to_nat (len ÷ 2)) fresh_slot) true])
    /\ drawn w' = drawn w.
Proof.
  intros Hlen Hok. destruct w as [h r d ok q]; cbn [heap drawn alloc_ok requested] in *.
  assert (Hk : 0 <= len ÷ 2 < 2 ^ 59).
  { pose proof (Z.quot_pos len 2 ltac:(lia) ltac:(lia)).
    pose proof (Z.quot_le_upper_bound len 2 len ltac:(lia) ltac:(lia)).
    unfold INT_MAX in Hlen. lia. }
  unfold split_into_groups. destruct (ok q) eqn:Hok1.
  - destruct Hok as [|Hok2]; [done|].
    unfold bind at 1. rewrite malloc_served by done.
    unfold bind at 1. rewrite malloc_refused by done. cbn [is_null orb]. unfold ret.
    eexists _, _, _. split; [done|]. split; [by right|]. split; [by right|done].
  - unfold bind at 1. rewrite malloc_refused by done.
    unfold bind at 1. cbn [is_null orb]. destruct (ok (S q)) eqn:Hok2.
    + rewrite malloc_served by done. unfold ret.
      eexists _, _, _. split; [done|]. split; [by left|]. split; [by right|done].
    + rewrite malloc_refused by done. unfold ret.
      eexists _, _, _. split; [done|]. split; [by left|]. split; [by left|done].
Qed.

(** ** The caller: [main] *)

Lemma free_at b cs h r d ok q :
  h !! b = Some (mkBlock cs true) ->
  free (Ptr b 0) (mkWorld h r d ok q)
  = Done tt (mkWorld (<[b := mkBlock cs false]> h) r d ok q).
Proof. intros Hb. unfold free; cbn [heap]. by rewrite Hb. Qed.

Lemma print_loop_at b (l : list Manage) h r d ok q n :
  h !! b = Some (mkBlock (slot_of <$> l) true) -> n = Z.of_nat (length l) ->
  forall k fuel i,
    (k <= fuel)%nat -> Z.of_nat k = n - i -> 0 <= i ->
    print_loop fuel (Ptr b 0) i n (mkWorld h r d ok q)
    = Done (print_names (pseudo <$> drop (Z.to_nat i) l)) (mkWorld h r d ok q).
Proof.
  intros Hb Hn. induction k as [|k IH]; intros fuel i Hfuel Hk Hi.
  - destruct fuel; simpl;
      replace (i <? n) with false by (symmetry; apply Z.ltb_ge; lia);
      by rewrite drop_ge by lia.
  - destruct fuel as [|fuel]; [lia|]. cbn [print_loop].
    replace (i <? n) with true by (symmetry; apply Z.ltb_lt; lia).
    destruct (lookup_lt_is_Some_2 l (Z.to_nat i) ltac:(lia)) as [e He].
    unfold bind at 1. unfold load_pseudo. unfold bind at 1. cbn [ptr_add].
    rewrite (load_ok b (0 + i) (slot_of <$> l) _ (slot_of e))
      by (done || lia || (rewrite Z.add_0_l, list_lookup_fmap, He; done)).
    cbn [slot_of slot_pseudo]. unfold ret at 1.
    unfold bind at 1. rewrite (IH fuel (i + 1)) by lia. unfold ret.
    rewrite (drop_S l e (Z.to_nat i)) by done. cbn [fmap list_fmap print_names].
    by replace (Z.to_nat (i + 1)) with (S (Z.to_nat i)) by lia.
Qed.

Lemma print_loop_whole b (l : list Manage) h r d ok q :
  h !! b = Some (mkBlock (slot_of <$> l) true) ->
  print_loop (length l) (Ptr b 0) 0 (Z.of_nat (length l)) (mkWorld h r d ok q)
  = Done (print_names (pseudo <$> l)) (mkWorld h r d ok q).
Proof.
  intros Hb. by rewrite (print_loop_at b l h r d ok q _ Hb eq_refl (length l)) by lia.
Qed.

Lemma print_loop_NULL fuel n w : 0 < n -> print_loop (S fuel) NULL 0 n w = Undefined.
Proof.
  intros Hn. cbn [print_loop].
  by replace (0 <? n) with true by (symmetry; apply Z.ltb_lt; lia).
Qed.

Lemma print_loop_indeterminate fuel b cs n h r d ok q :
  0 < n -> h !! b = Some (mkBlock (fresh_slot :: cs) true) ->
  print_loop (S fuel) (Ptr b 0) 0 n (mkWorld h r d ok q) = Undefined.
Proof.
  intros Hn Hb. cbn [print_loop].
  replace (0 <? n) with true by (symmetry; apply Z.ltb_lt; lia).
  unfold bind at 1. unfold load_pseudo. unfold bind at 1. cbn [ptr_add].
  by rewrite (load_ok b (0 + 0) (fresh_slot :: cs) _ fresh_slot).
Qed.

Lemma universe_the_names_labels : pseudo <$> universe the_names = the_names.
Proof. reflexivity. Qed.

(** X13. When the four allocations of a run are served, [main] exits
    with status 0 for every stream of [rand()] results. It writes the
    six names in some order [l], each once, then the first three of [l]
    as group A and the last three as group B, and at exit each of the
    four blocks it allocated has been freed. *)
Theorem main_success w :
  (forall t, (t < 4)%nat -> alloc_ok w (requested w + t)%nat = true) ->
  exists w' l blocks,
    main w = Done (0, report l) w'
    /\ l ≡ₚ the_names
    /\ heap w' = heap w ++ blocks
    /\ length blocks = 4%nat
    /\ Forall (fun blk => live blk = false) blocks
    /\ drawn w' = (drawn w + 5)%nat.
Proof.
  intros Hok. destruct w as [h r d ok q]; cbn [heap drawn alloc_ok requested] in *.
  assert (Hok0 : ok q = true) by (rewrite <- (Hok 0%nat) by lia; f_equal; lia).
  assert (Hok1 : ok (S q) = true) by (rewrite <- (Hok 1%nat) by lia; f_equal; lia).
  assert (Hok2 : ok (S (S q)) = true) by (rewrite <- (Hok 2%nat) by lia; f_equal; lia).
  assert (Hok3 : ok (S (S (S q))) = true) by (rewrite <- (Hok 3%nat) by lia; f_equal; lia).
  set (shuffled := shuffle_draws (draws_of r d 5) (universe the_names)).
  assert (Hperm : shuffled ≡ₚ universe the_names) by apply shuffle_draws_perm.
  assert (Hlen : length shuffled = 6%nat) by (by rewrite (Permutation_length Hperm)).
  unfold main. unfold bind at 1.
  rewrite (create_served 6 the_names h r d ok q) by (done || (cbn; lia)).
  cbv zeta. fold shuffled. cbn [is_null].
  change (Z.to_nat 6) with 6%nat. rewrite (take_ge shuffled) by lia.
  set (U := mkBlock (slot_of <$> shuffled) false).
  set (sl := slot_of <$> shuffled).
  assert (Hsl : length sl = 6%nat) by (unfold sl; by rewrite length_fmap).
  (* the list is printed *)
  unfold bind at 1.
  pose proof (print_loop_whole (S (length h)) shuffled (h ++ [U; mkBlock sl true])
                r (d + 5) ok (S (S q)) (lookup_last2_r _ _ _)) as Hprint.
  rewrite Hlen in Hprint. change (Z.of_nat 6) with 6 in Hprint. rewrite Hprint. clear Hprint.
  (* the list is split *)
  unfold bind at 1.
  pose proof (split_served (S (length h)) [] sl [] (h ++ [U; mkBlock sl true])
                r (d + 5) ok (S (S q)) 3 Hsl ltac:(done)) as Hsplit.
  rewrite app_nil_r in Hsplit. specialize (Hsplit (lookup_last2_r _ _ _) Hok2 Hok3).
  change (Z.of_nat (length [])) with 0 in Hsplit.
  change (Z.of_nat (2 * 3)) with 6 in Hsplit. rewrite Hsplit. clear Hsplit.
  cbn [fst snd]. change (6 ÷ 2) with 3. change (Z.to_nat 3) with 3%nat.
  set (h1 := h ++ [U; mkBlock sl true]).
  assert (Hh1 : length h1 = S (S (length h)))
    by (unfold h1; rewrite length_app; cbn [length]; lia).
  replace (take 3 sl) with (slot_of <$> take 3 shuffled) by (unfold sl; by rewrite fmap_take).
  replace (drop 3 sl) with (slot_of <$> drop 3 shuffled) by (unfold sl; by rewrite fmap_drop).
  (* the groups are printed *)
  unfold bind at 1.
  pose proof (print_loop_whole (length h1) (take 3 shuffled)
                (h1 ++ [mkBlock (slot_of <$> take 3 shuffled) true;
                        mkBlock (slot_of <$> drop 3 shuffled) true])
                r (d + 5) ok (S (S (S (S q)))) (lookup_last2_l _ _ _)) as Hprint.
  rewrite length_take, Hlen in Hprint. change (Z.of_nat (3 `min` 6)) with 3 in Hprint.
  change (3 `min` 6)%nat with 3%nat in Hprint. rewrite Hprint. clear Hprint.
  unfold bind at 1.
  pose proof (print_loop_whole (S (length h1)) (drop 3 shuffled)
                (h1 ++ [mkBlock (slot_of <$> take 3 shuffled) true;
                        mkBlock (slot_of <$> drop 3 shuffled) true])
                r (d + 5) ok (S (S (S (S q)))) (lookup_last2_r _ _ _)) as Hprint.
  rewrite length_drop, Hlen in Hprint. change (Z.of_nat (6 - 3)) with 3 in Hprint.
  change (6 - 3)%nat with 3%nat in Hprint. rewrite Hprint. clear Hprint.
  (* the three blocks are freed *)
  unfold bind at 1.
  rewrite (free_at (S (length h)) sl)
    by (apply lookup_app_l_Some; unfold h1; apply lookup_last2_r).
  rewrite insert_app_l by lia.
  assert (Hins : <[S (length h) := mkBlock sl false]> h1 = h ++ [U; mkBlock sl false])
    by (unfold h1; apply insert_last2_r).
  rewrite Hins. clear Hins.
  set (h1' := h ++ [U; mkBlock sl false]).
  assert (Hh1' : length h1 = length h1')
    by (unfold h1'; rewrite Hh1, length_app; cbn [length]; lia).
  rewrite Hh1'.
  unfold bind at 1. rewrite (free_at (length h1') (slot_of <$> take 3 shuffled))
    by apply lookup_last2_l.
  rewrite insert_last2_l.
  unfold bind at 1. rewrite (free_at (S (length h1')) (slot_of <$> drop 3 shuffled))
    by apply lookup_last2_r.
  rewrite insert_last2_r. unfold ret.
  exists (mkWorld (h1' ++ [mkBlock (slot_of <$> take 3 shuffled) false;
                           mkBlock (slot_of <$> drop 3 shuffled) false])
                  r (d + 5) ok (S (S (S (S q))))),
    (pseudo <$> shuffled),
    [U; mkBlock sl false; mkBlock (slot_of <$> take 3 shuffled) false;
     mkBlock (slot_of <$> drop 3 shuffled) false].
  split; [by unfold report; rewrite !fmap_take, !fmap_drop|].
  split; [by rewrite Hperm|]. cbn [heap drawn].
  split; [unfold h1'; by rewrite <- app_assoc|].
  split; [done|]. split; [|done]. by repeat constructor.
Qed.

(** X14. When one of the two allocations of
    [create_distinct_random_list] is refused, [main] writes the error
    message and nothing else, and exits with status 1. *)
Theorem main_reports_failed_creation w :
  alloc_ok w (requested w) = false \/ alloc_ok w (S (requested w)) = false ->
  exists w',
    main w = Done (1, ("Error: Failed to create the random list." ++ newline)%string) w'
    /\ drawn w' = drawn w.
Proof.
  intros Hok. destruct w as [h r d ok q]; cbn [drawn alloc_ok requested] in *.
  unfold main. unfold bind at 1. unfold create_distinct_random_list.
  change (6 >? RANGE) with false. cbv iota.
  destruct (ok q) eqn:Hok1.
  - destruct Hok as [|Hok2]; [done|].
    unfold bind at 1. rewrite malloc_served by (done || (unfold RANGE; lia)).
    unfold bind at 1. rewrite malloc_refused by done.
    cbn [is_null orb]. unfold ret. by eexists.
  - unfold bind at 1. rewrite malloc_refused by done.
    unfold bind at 1. destruct (ok (S q)) eqn:Hok2.
    + rewrite malloc_served by (done || lia). cbn [is_null orb]. unfold ret. by eexists.
    + rewrite malloc_refused by done. cbn [is_null orb]. unfold ret. by eexists.
Qed.

(** X15. [main] does not look at the pointers [split_into_groups] leaves.
    When the list was created and one of the two allocations of the
    split is refused, [main] goes on to print the groups: it reads an
    indeterminate [pseudo] of group A, or reads through the [NULL]
    pointer, and its behaviour is undefined. *)
Theorem main_ignores_failed_split w :
  alloc_ok w (requested w) = true -> alloc_ok w (S (requested w)) = true ->
  alloc_ok w (S (S (requested w))) = false \/ alloc_ok w (S (S (S (requested w)))) = false ->
  main w = Undefined.
Proof.
  intros Hok0 Hok1 Hok.
  destruct w as [h r d ok q]; cbn [heap drawn alloc_ok requested] in *.
  set (shuffled := shuffle_draws (draws_of r d 5) (universe the_names)).
  assert (Hperm : shuffled ≡ₚ universe the_names) by apply shuffle_draws_perm.
  assert (Hlen : length shuffled = 6%nat) by (by rewrite (Permutation_length Hperm)).
  unfold main. unfold bind at 1.
  rewrite (create_served 6 the_names h r d ok q) by (done || (cbn; lia)).
  cbv zeta. fold shuffled. cbn [is_null].
  change (Z.to_nat 6) with 6%nat. rewrite (take_ge shuffled) by lia.
  set (h1 := h ++ [mkBlock (slot_of <$> shuffled) false; mkBlock (slot_of <$> shuffled) true]).
  unfold bind at 1.
  pose proof (print_loop_whole (S (length h)) shuffled h1
                r (d + 5) ok (S (S q)) (lookup_last2_r _ _ _)) as Hprint.
  rewrite Hlen in Hprint. change (Z.of_nat 6) with 6 in Hprint. rewrite Hprint. clear Hprint.
  unfold bind at 1. change (6 ÷ 2) with 3. change (Z.to_nat 3) with 3%nat.
  destruct (ok (S (S q))) eqn:Hok2.
  - destruct Hok as [|Hok3]; [done|].
    rewrite (split_second_refused _ 3 h1 r (d + 5) ok (S (S q))) by (done || lia).
    cbn [fst snd]. change (Z.to_nat 3) with 3%nat. unfold bind at 1.
    by rewrite (print_loop_indeterminate 2 (length h1) (replicate 2 fresh_slot))
      by (done || (by rewrite lookup_app_r, Nat.sub_diag by lia)).
  - unfold split_into_groups. unfold bind at 1. rewrite malloc_refused by done.
    unfold bind at 1.
    destruct (malloc (array_bytes (6 ÷ 2)) (mkWorld h1 r (d + 5) ok (S (S (S q)))))
      as [p w2| |] eqn:Hm.
    + cbn [is_null orb]. unfold ret at 1. cbn [fst snd]. unfold bind at 1.
      by rewrite print_loop_NULL.
    + unfold malloc in Hm. by destruct (_ && _).
    + unfold malloc in Hm. by destruct (_ && _).
Qed.

(** ** More on [ft_swap] and [shuffle] *)

(** X2. Two calls of [ft_swap] on the same pointers put every object
    back where it was. *)
Theorem ft_swap_twice ptr ptr2 w x y :
  load ptr w = Done x w -> load ptr2 w = Done y w ->
  exists w',
    (ft_swap ptr ptr2 ;;; ft_swap ptr ptr2) w = Done tt w'
    /\ forall r s, load r w = Done s w -> load r w' = Done s w'.
Proof.
  intros Hx Hy.
  destruct (ft_swap_spec ptr ptr2 w x y Hx Hy) as (w1 & Hrun1 & Hp1 & Hq1 & Hother1 & _).
  destruct (ft_swap_spec ptr ptr2 w1 y x Hp1 Hq1) as (w2 & Hrun2 & Hp2 & Hq2 & Hother2 & _).
  exists w2. split; [unfold bind; by rewrite Hrun1|].
  intros r s Hr. destruct (decide (r = ptr)) as [->|Hne1].
  - rewrite Hx in Hr. by injection Hr as <-.
  - destruct (decide (r = ptr2)) as [->|Hne2].
    + rewrite Hy in Hr. by injection Hr as <-.
    + apply Hother2; [done|done|]. by apply Hother1.
Qed.

(** X5. The first iteration of [shuffle] settles the last place: after
    the call it holds the object that was at index [rand() % len], for
    the first result of [rand()], and the later iterations do not touch
    it. *)
Theorem shuffle_last_place w array len sl :
  read_slots w array len = Some sl -> 2 <= len ->
  exists w' sl',
    shuffle array len w = Done tt w'
    /\ read_slots w' array len = Some sl'
    /\ sl' !! Z.to_nat (len - 1)
       = sl !! Z.to_nat (Z.rem (Z.of_N (rng w (drawn w))) len).
Proof.
  intros Hread Hlen2. destruct array as [|b o]; [done|].
  destruct (read_slots_inv _ _ _ _ _ Hread) as (pre & post & Hb & -> & ->).
  destruct w as [h r d ok q]; cbn [heap rng drawn] in *.
  rewrite (shuffle_at b pre sl post) by done.
  set (sl' := shuffle_draws (draws_of r d (length sl - 1)) sl).
  assert (Hlen : length sl' = length sl) by apply shuffle_draws_length.
  eexists _, sl'. split; [done|]. split.
  - rewrite <- Hlen. apply (read_slots_middle _ b pre _ post); cbn [heap].
    apply list_lookup_insert_eq. eapply lookup_lt_Some; eauto.
  - destruct (length sl - 1)%nat as [|n] eqn:Hn; [lia|].
    subst sl'. cbn [draws_of].
    set (j := Z.to_nat (Z.rem (Z.of_N (r d)) (Z.of_nat (S n) + 1))).
    pose proof (rem_draw_bound (r d) (S n)) as Hj.
    set (ds := draws_of r (S d) n).
    assert (Hds : length ds = n) by apply draws_of_length.
    destruct (lookup_lt_is_Some_2 sl j ltac:(lia)) as [y Hy].
    rewrite (shuffle_draws_last j ds sl y)
      by (done || lia || apply draws_of_valid).
    replace (Z.of_nat (length sl)) with (Z.of_nat (S n) + 1) by lia.
    fold j. rewrite Hy.
    rewrite lookup_app_r; rewrite shuffle_draws_length, length_take, swap_at_length; [|lia].
    by replace (Z.to_nat (Z.of_nat (S n) + 1 - 1) - S (length ds) `min` length sl)%nat
      with 0%nat by lia.
Qed.

(** ** The further properties at concrete inputs *)

Lemma ft_swap_exchanges_witness :
  exists w',
    ft_swap (Ptr 0 0) (Ptr 0 2) (world_of_array three_entries [] []) = Done tt w'
    /\ load (Ptr 0 0) w' = Done (slot_of (mkManage "jpantoja" 2)) w'
    /\ load (Ptr 0 2) w' = Done (slot_of (mkManage "dlesieur" 0)) w'
    /\ (forall r s, r <> Ptr 0 0 -> r <> Ptr 0 2 ->
          load r (world_of_array three_entries [] []) = Done s (world_of_array three_entries [] [])
          -> load r w' = Done s w')
    /\ drawn w' = 0%nat /\ requested w' = 0%nat.
Proof.
  apply (ft_swap_exchanges (Ptr 0 0) (Ptr 0 2) (world_of_array three_entries [] [])
           (slot_of (mkManage "dlesieur" 0)) (slot_of (mkManage "jpantoja" 2)));
    reflexivity.
Defined.

Lemma ft_swap_twice_witness :
  exists w',
    (ft_swap (Ptr 0 0) (Ptr 0 2) ;;; ft_swap (Ptr 0 0) (Ptr 0 2))
      (world_of_array three_entries [] []) = Done tt w'
    /\ forall r s,
         load r (world_of_array three_entries [] []) = Done s (world_of_array three_entries [] [])
         -> load r w' = Done s w'.
Proof.
  apply (ft_swap_twice (Ptr 0 0) (Ptr 0 2) (world_of_array three_entries [] [])
           (slot_of (mkManage "dlesieur" 0)) (slot_of (mkManage "jpantoja" 2)));
    reflexivity.
Defined.

Lemma shuffle_frame_witness :
  exists w',
    shuffle (Ptr 0 1) 2 (world_of_array four_entries [4; 7]%N []) = Done tt w'
    /\ (forall b', b' <> 0%nat ->
          heap w' !! b' = heap (world_of_array four_entries [4; 7]%N []) !! b')
    /\ (forall o' s, o' < 1 \/ 1 + 2 <= o' ->
          load (Ptr 0 o') (world_of_array four_entries [4; 7]%N [])
          = Done s (world_of_array four_entries [4; 7]%N []) ->
          load (Ptr 0 o') w' = Done s w')
    /\ length (heap w') = 1%nat
    /\ rng w' = rng (world_of_array four_entries [4; 7]%N [])
    /\ alloc_ok w' = alloc_ok (world_of_array four_entries [4; 7]%N [])
    /\ requested w' = 0%nat.
Proof.
  apply (shuffle_frame (world_of_array four_entries [4; 7]%N []) 0 1 2
           (take 2 (drop 1 four_entries))).
  reflexivity.
Defined.

Lemma shuffle_beyond_array_witness :
  shuffle (Ptr 0 0) 4 (world_of_array three_entries [4; 7]%N []) = Undefined.
Proof.
  apply (shuffle_beyond_array 0 0 4 (world_of_array three_entries [4; 7]%N []));
    [lia|reflexivity].
Defined.

Lemma shuffle_last_place_witness :
  exists w' sl',
    shuffle (Ptr 0 0) 3 (world_of_array three_entries [4; 7]%N []) = Done tt w'
    /\ read_slots w' (Ptr 0 0) 3 = Some sl'
    /\ sl' !! 2%nat = three_entries !! 1%nat.
Proof.
  apply (shuffle_last_place (world_of_array three_entries [4; 7]%N []) (Ptr 0 0) 3
           three_entries); [reflexivity|lia].
Defined.

Lemma create_accounting_witness :
  exists w' universe_block result_block,
    create_distinct_random_list 4 the_names (world0 [3; 1; 2; 0; 1]%N [])
    = Done (Ptr 1 0) w'
    /\ heap w' = [] ++ [universe_block; result_block]
    /\ live universe_block = false
    /\ live result_block = true
    /\ Z.of_nat (length (cells result_block)) = 4
    /\ drawn w' = 5%nat
    /\ requested w' = 2%nat
    /\ rng w' = rng (world0 [3; 1; 2; 0; 1]%N []).
Proof.
  apply (create_accounting 4 the_names (world0 [3; 1; 2; 0; 1]%N []));
    [unfold RANGE; lia|vm_compute; lia|reflexivity|reflexivity].
Defined.

Lemma create_prefix_of_full_witness :
  exists res w1 full w6 l6,
    create_distinct_random_list 4 the_names (world0 [3; 1; 2; 0; 1]%N []) = Done res w1
    /\ create_distinct_random_list RANGE the_names (world0 [3; 1; 2; 0; 1]%N []) = Done full w6
    /\ read_array w6 full RANGE = Some l6
    /\ read_array w1 res 4 = Some (take 4 l6).
Proof.
  apply (create_prefix_of_full 4 the_names (world0 [3; 1; 2; 0; 1]%N []));
    [unfold RANGE; lia|vm_compute; lia|reflexivity|reflexivity].
Defined.

Lemma create_full_is_rearrangement_witness :
  exists res w' l,
    create_distinct_random_list RANGE the_names (world0 [3; 1; 2; 0; 1]%N []) = Done res w'
    /\ read_array w' res RANGE = Some l
    /\ l ≡ₚ universe the_names
    /\ pseudo <$> l ≡ₚ take 6 the_names
    /\ id <$> l ≡ₚ [0; 1; 2; 3; 4; 5].
Proof.
  apply (create_full_is_rearrangement the_names (world0 [3; 1; 2; 0; 1]%N []));
    [vm_compute; lia|reflexivity|reflexivity].
Defined.

Lemma create_refusal_keeps_buffer_witness :
  exists w' blk,
    create_distinct_random_list 3 the_names (world0 [] [true; false]) = Done NULL w'
    /\ heap w' = [] ++ [blk]
    /\ live blk = true
    /\ drawn w' = 0%nat.
Proof.
  apply (create_refusal_keeps_buffer 3 the_names (world0 [] [true; false]));
    [unfold RANGE; lia|reflexivity].
Defined.


Lemma split_odd_length_witness :
  split_into_groups (Ptr 0 0) (2 * 1 + 1) (world_of_array three_entries [] []) = Undefined.
Proof.
  apply (split_odd_length (world_of_array three_entries [] []) (Ptr 0 0) 1 three_entries);
    [reflexivity|vm_compute; discriminate|reflexivity|reflexivity].
Defined.

Lemma split_refusal_copies_nothing_witness :
  exists group_a group_b w',
    split_into_groups (Ptr 0 0) 4 (world_of_array four_entries [] [false])
    = Done (group_a, group_b) w'
    /\ (group_a = NULL \/ group_b = NULL)
    /\ (heap w' = heap (world_of_array four_entries [] [false])
        \/ heap w' = heap (world_of_array four_entries [] [false])
                     ++ [mkBlock (replicate (Z.to_nat (4 ÷ 2)) fresh_slot) true])
    /\ drawn w' = 0%nat.
Proof.
  apply (split_refusal_copies_nothing (Ptr 0 0) 4 (world_of_array four_entries [] [false]));
    [unfold INT_MAX; lia|left; reflexivity].
Defined.

Lemma main_success_witness :
  exists w' l blocks,
    main (world0 [3; 1; 2; 0; 1]%N []) = Done (0, report l) w'
    /\ l ≡ₚ the_names
    /\ heap w' = [] ++ blocks
    /\ length blocks = 4%nat
    /\ Forall (fun blk => live blk = false) blocks
    /\ drawn w' = 5%nat.
Proof.
  apply (main_success (world0 [3; 1; 2; 0; 1]%N [])).
  intros [|[|[|[|t]]]] Ht; (reflexivity || lia).
Defined.

Lemma main_reports_failed_creation_witness :
  exists w',
    main (world0 [] [true; false])
    = Done (1, ("Error: Failed to create the random list." ++ newline)%string) w'
    /\ drawn w' = 0%nat.
Proof.
  apply (main_reports_failed_creation (world0 [] [true; false])). right. reflexivity.
Defined.

Lemma main_ignores_failed_split_witness :
  main (world0 [3; 1; 2; 0; 1]%N [true; true; true; false]) = Undefined.
Proof.
  apply (main_ignores_failed_split (world0 [3; 1; 2; 0; 1]%N [true; true; true; false]));
    [reflexivity|reflexivity|right; reflexivity].
Defined.

(** The run of [main] on the reference stream of draws. *)
Example main_reference_run :
  exists w',
    main (world0 [3; 1; 2; 0; 1]%N [])
    = Done (0, report ["vjan-nie"; "rocgarci"; "dlesieur";
                       "jpantoja"; "anvilla"; "marimuno"]%string) w'.
Proof. eexists. vm_compute. reflexivity. Qed.
